(** * Customer booking dashboard: the filter and aggregation pipeline

    A shallow embedding of the dashboard's data pipeline
    ([dashboard/src/App.tsx], [dashboard/src/components/ChartPanel.tsx],
    [dashboard/src/utils/routeMapping.ts]) together with the JavaScript
    library behaviour the pipeline relies on, followed by the properties
    of the pipeline. *)

From Stdlib Require Import ZArith NArith Ascii String List Sorted Permutation Lia.
From Stdlib Require Import Floats.SpecFloat.
From stdpp Require Import base decidable option list sorting strings pretty gmap.

Local Open Scope string_scope.

(** ** JavaScript values and library functions used by the dashboard *)

Module JS.

(** Strings are kept as byte strings (the UTF-8 text of the CSV file and
    of the source literals): two strings are equal exactly when their
    bytes are.  A value of TypeScript type [string | undefined] is an
    [option string]; [None] is [undefined]. *)

(** [ToBoolean] on a string: only the empty string is falsy. *)
Definition truthy (s : string) : bool := negb (bool_decide (s = "")).

(** [ToBoolean] on [string | undefined]. *)
Definition truthy_opt (v : option string) : bool :=
  match v with
  | Some s => truthy s
  | None => false
  end.

(** [v || d] for [v : string | undefined] and a string [d]. *)
Definition or_else (v : option string) (d : string) : string :=
  match v with
  | Some s => if truthy s then s else d
  | None => d
  end.

(** [v ?? d]: only [undefined] (and [null]) are replaced. *)
Definition nullish (v : option string) (d : string) : string :=
  match v with
  | Some s => s
  | None => d
  end.

(** [a !== b] between a [string | undefined] and a string. *)
Definition strict_ne (a : option string) (b : string) : bool :=
  negb (bool_decide (a = Some b)).

(** *** Arrays *)

(** [Array.prototype.sort(cmp)]: the sort is stable (ECMAScript 2019), so
    for a consistent comparator the result is the one computed by a
    stable insertion sort.  [cmp a b > 0] means that [a] goes after [b]. *)
Fixpoint sort_insert {A} (cmp : A → A → Z) (x : A) (l : list A) : list A :=
  match l with
  | [] => [x]
  | y :: l' => if (cmp x y <=? 0)%Z then x :: y :: l' else y :: sort_insert cmp x l'
  end.

Definition Array_sort {A} (cmp : A → A → Z) (l : list A) : list A :=
  foldr (sort_insert cmp) [] l.

(** The comparator of [sort()] without argument, on strings: the strings
    are compared unit by unit.  On UTF-8 bytes this is the order of the
    UTF-16 code units of JavaScript, except between a character above
    U+FFFF and one from U+E000 to U+FFFF. *)
Definition default_cmp (a b : string) : Z :=
  match String.compare a b with
  | Lt => (-1)%Z
  | Eq => 0%Z
  | Gt => 1%Z
  end.

(** [values.filter(Boolean)] on an array of [string | undefined]. *)
Definition filter_Boolean (values : list (option string)) : list string :=
  omap (λ v, if truthy_opt v then v else None) values.

(** *** Sets *)

(** A [Set] keeps its members in the order of their first insertion;
    [Array.from(set)] lists them in that order. *)
Definition Set_add `{EqDecision A} (s : list A) (x : A) : list A :=
  if decide (x ∈ s) then s else s ++ [x].

Definition new_Set `{EqDecision A} (l : list A) : list A :=
  foldl Set_add [] l.

(** *** Objects used as dictionaries *)

(** An object literal [{}] used as [Record<string, V>]: its own
    properties in creation order.  Only own properties are modelled;
    the keys that a plain object inherits from [Object.prototype]
    ([constructor], [toString], ...) are outside the model. *)
Definition Obj (V : Type) : Type := list (string * V).

(** [o[k]] *)
Fixpoint get {V} (o : Obj V) (k : string) : option V :=
  match o with
  | [] => None
  | (k', v) :: o' => if decide (k' = k) then Some v else get o' k
  end.

(** [o[k] = v]: an existing property keeps its place, a new one is
    created last. *)
Fixpoint set {V} (o : Obj V) (k : string) (v : V) : Obj V :=
  match o with
  | [] => [(k, v)]
  | (k', v') :: o' =>
      if decide (k' = k) then (k', v) :: o' else (k', v') :: set o' k v
  end.

(** The value of a decimal digit (the characters of codes 48 to 57). *)
Definition digit (c : ascii) : option N :=
  let n := N_of_ascii c in
  if ((48 <=? n) && (n <=? 57))%N then Some (n - 48)%N else None.

(** Value of a string of decimal digits, read after the digits [acc]. *)
Fixpoint digits (s : string) (acc : N) : option N :=
  match s with
  | "" => Some acc
  | String c s' =>
      match digit c with
      | Some d => digits s' (10 * acc + d)%N
      | None => None
      end
  end.

(** A property key is an array index when it is the canonical decimal
    text of an integer between 0 and 2^32 - 2. *)
Definition array_index (k : string) : option N :=
  match k with
  | "" => None
  | String "0" "" => Some 0%N
  | String "0" _ => None
  | _ =>
      match digits k 0 with
      | Some n => if (n <? 4294967295)%N then Some n else None
      | None => None
      end
  end.

Definition is_index {V} (p : string * V) : bool :=
  bool_decide (is_Some (array_index p.1)).

Definition index_cmp {V} (p q : string * V) : Z :=
  (Z.of_N (default 0%N (array_index p.1)) - Z.of_N (default 0%N (array_index q.1)))%Z.

(** [Object.entries(o)]: the array-index keys first, in ascending
    numeric order, then the other string keys in creation order. *)
Definition Object_entries {V} (o : Obj V) : list (string * V) :=
  Array_sort index_cmp (List.filter is_index o)
    ++ List.filter (λ p, negb (is_index p)) o.

End JS.

(** ** JavaScript numbers *)

(** A Number is an IEEE 754 binary64 value; the arithmetic is the one of
    [SpecFloat] at precision 53 (round to nearest, ties to even). *)
Module Number.

Definition prec : Z := 53.
Definition emax : Z := 1024.

Abbreviation number := spec_float.

#[global] Instance number_eq_dec : EqDecision spec_float.
Proof. solve_decision. Defined.

Definition NaN : number := S754_nan.
Definition zero : number := S754_zero false.

Definition add : number → number → number := SFadd prec emax.
Definition mul : number → number → number := SFmul prec emax.
Definition div : number → number → number := SFdiv prec emax.

(** The Number for an integer (exact below 2^53). *)
Definition of_Z (z : Z) : number := binary_normalize prec emax z 0 false.
Definition of_nat (n : nat) : number := of_Z (Z.of_nat n).

(** The Number nearest to [m * 10^e]. *)
Definition of_decimal (neg : bool) (m : N) (e : Z) : number :=
  match m with
  | N0 => S754_zero neg
  | Npos p =>
      match e with
      | Zneg k => SFdiv prec emax (S754_finite neg p 0) (S754_finite false (10 ^ k) 0)
      | _ => binary_round prec emax neg (p * Z.to_pos (10 ^ e)) 0
      end
  end.

(** [ToBoolean] on a Number: [NaN], [+0] and [-0] are falsy. *)
Definition truthy (x : number) : bool :=
  match x with
  | S754_nan | S754_zero _ => false
  | _ => true
  end.

(** [x || y] on Numbers. *)
Definition or_else (x y : number) : number := if truthy x then x else y.

(** *** [StringToNumber] *)

Definition is_ws1 (c : ascii) : bool :=
  match c with
  | "009" | "010" | "011" | "012" | "013" | " " => true
  | _ => false
  end%char.

(** U+00A0. *)
Definition is_ws2 (c1 c2 : ascii) : bool :=
  bool_decide (c1 = "194"%char) && bool_decide (c2 = "160"%char).

(** U+1680, U+2000 to U+200A, U+2028, U+2029, U+202F, U+205F, U+3000,
    U+FEFF. *)
Definition is_ws3 (c1 c2 c3 : ascii) : bool :=
  let n1 := N_of_ascii c1 in
  let n2 := N_of_ascii c2 in
  let n3 := N_of_ascii c3 in
  ((n1 =? 225) && (n2 =? 154) && (n3 =? 128)
   || (n1 =? 226) && (n2 =? 128)
        && ((128 <=? n3) && (n3 <=? 138) || (n3 =? 168) || (n3 =? 169) || (n3 =? 175))
   || (n1 =? 226) && (n2 =? 129) && (n3 =? 159)
   || (n1 =? 227) && (n2 =? 128) && (n3 =? 128)
   || (n1 =? 239) && (n2 =? 187) && (n3 =? 191))%N.

(** Drop the white space and line terminators at the start. *)
Fixpoint trim_start (s : string) : string :=
  match s with
  | "" => ""
  | String c1 s1 =>
      if is_ws1 c1 then trim_start s1
      else
        match s1 with
        | String c2 s2 =>
            if is_ws2 c1 c2 then trim_start s2
            else
              match s2 with
              | String c3 s3 => if is_ws3 c1 c2 c3 then trim_start s3 else s
              | "" => s
              end
        | "" => s
        end
  end.

Fixpoint trim_end (s : string) : string :=
  match s with
  | "" => ""
  | String c s' =>
      if bool_decide (trim_start s = "") then "" else String c (trim_end s')
  end.

Definition trim (s : string) : string := trim_end (trim_start s).

(** The longest prefix of digits in base [base]: the value read after
    [acc], the number of digits read, and the rest of the string. *)
Definition digit_in (base : N) (c : ascii) : option N :=
  let n := N_of_ascii c in
  let d := (if (48 <=? n) && (n <=? 57) then Some (n - 48)
            else if (97 <=? n) && (n <=? 102) then Some (n - 87)
            else if (65 <=? n) && (n <=? 70) then Some (n - 55)
            else None)%N in
  d ≫= λ v, if (v <? base)%N then Some v else None.

Fixpoint read_digits (base : N) (s : string) (acc : N) (cnt : nat) : N * nat * string :=
  match s with
  | "" => (acc, cnt, "")
  | String c s' =>
      match digit_in base c with
      | Some d => read_digits base s' (base * acc + d)%N (S cnt)
      | None => (acc, cnt, s)
      end
  end.

(** [0x], [0o] and [0b] literals (no sign, at least one digit). *)
Definition parse_nondecimal (s : string) : option N :=
  match s with
  | String "0" (String p s') =>
      let base :=
        match p with
        | "x" | "X" => Some 16%N
        | "o" | "O" => Some 8%N
        | "b" | "B" => Some 2%N
        | _ => None
        end%char in
      base ≫= λ b,
        match read_digits b s' 0 0 with
        | (v, S _, "") => Some v
        | _ => None
        end
  | _ => None
  end.

Definition read_sign (s : string) : bool * string :=
  match s with
  | String "+" s' => (false, s')
  | String "-" s' => (true, s')
  | _ => (false, s)
  end.

(** The exponent part, if any: [e] or [E], an optional sign, digits. *)
Definition parse_exponent (s : string) : option Z :=
  match s with
  | "" => Some 0%Z
  | String c s' =>
      if bool_decide (c = "e"%char) || bool_decide (c = "E"%char) then
        let '(neg, s'') := read_sign s' in
        match read_digits 10 s'' 0 0 with
        | (v, S _, "") => Some (if neg then - Z.of_N v else Z.of_N v)%Z
        | _ => None
        end
      else None
  end.

(** A decimal literal: sign, then [Infinity] or digits with an optional
    fraction and exponent. *)
Definition parse_decimal (s : string) : option number :=
  let '(neg, s1) := read_sign s in
  if bool_decide (s1 = "Infinity") then Some (S754_infinity neg)
  else
    let '(m1, n1, s2) := read_digits 10 s1 0 0 in
    let '(m, n2, s3) :=
      match s2 with
      | String "." s2' => read_digits 10 s2' m1 0
      | _ => (m1, 0, s2)
      end in
    if bool_decide (n1 + n2 = 0) then None
    else (λ e, of_decimal neg m (e - Z.of_nat n2)) <$> parse_exponent s3.

Definition StringToNumber (s : string) : number :=
  let t := trim s in
  if bool_decide (t = "") then zero
  else
    match parse_nondecimal t with
    | Some v => of_Z (Z.of_N v)
    | None => default NaN (parse_decimal t)
    end.

(** [Number(v)] and unary [+v] for [v : string | undefined]. *)
Definition ToNumber (v : option string) : number :=
  match v with
  | Some s => StringToNumber s
  | None => NaN
  end.

(** *** [Number.prototype.toFixed] *)

(** The integer nearest to [m * 2^e * 10^f]; of two nearest ones, the
    larger. *)
Definition nearest_scaled (m : positive) (e : Z) (f : nat) : N :=
  let v := (Z.pos m * 10 ^ Z.of_nat f)%Z in
  match e with
  | Zneg k => Z.to_N ((2 * v + 2 ^ Z.pos k) / 2 ^ (Z.pos k + 1))
  | _ => Z.to_N (v * 2 ^ e)
  end.

Fixpoint zeros (n : nat) : string :=
  match n with
  | O => ""
  | S n' => String "0" (zeros n')
  end.

Fixpoint take_str (n : nat) (s : string) : string :=
  match n, s with
  | S n', String c s' => String c (take_str n' s')
  | _, _ => ""
  end.

Fixpoint drop_str (n : nat) (s : string) : string :=
  match n, s with
  | S n', String _ s' => drop_str n' s'
  | _, _ => s
  end.

(** The decimal text of [n / 10^f] with exactly [f] fraction digits. *)
Definition fixed_text (n : N) (f : nat) : string :=
  let m := pretty n in
  if bool_decide (f = 0%nat) then m
  else
    let m := if (String.length m <=? f)%nat
             then zeros (f + 1 - String.length m) +:+ m else m in
    let k := String.length m in
    take_str (k - f) m +:+ "." +:+ drop_str (k - f) m.

(** Whether [10^21 <= m * 2^e]. *)
Definition ge_1e21 (m : positive) (e : Z) : bool :=
  match e with
  | Zneg k => (10 ^ 21 * 2 ^ Z.pos k <=? Z.pos m)%Z
  | _ => (10 ^ 21 <=? Z.pos m * 2 ^ e)%Z
  end.

(** [Number::toString] on a finite [x = v >= 10^21] (an integer):
    the shortest digit string [s] of [k] digits with [s * 10^(n - k)]
    rounding to [x]; of two such strings of the same length, the one
    closer to [v], then the even one.  [search] tries [k], [k + 1], ... *)
Definition candidate (x : number) (v : Z) (d k : nat) : option (N * nat) :=
  let p := (10 ^ Z.of_nat (d - k))%Z in
  let lo := (v / p)%Z in
  let hi := (lo + 1)%Z in
  let ok c := bool_decide (of_Z (c * p) = x) in
  let pick_lo := Some (Z.to_N lo, d) in
  let pick_hi :=
    if bool_decide (hi = 10 ^ Z.of_nat k)%Z
    then Some (Z.to_N (10 ^ Z.of_nat (k - 1)), S d)
    else Some (Z.to_N hi, d) in
  match ok lo, ok hi with
  | true, true =>
      match (v - lo * p ?= hi * p - v)%Z with
      | Lt => pick_lo
      | Gt => pick_hi
      | Eq => if Z.even lo then pick_lo else pick_hi
      end
  | true, false => pick_lo
  | false, true => pick_hi
  | false, false => None
  end.

Fixpoint search (x : number) (v : Z) (d k fuel : nat) : N * nat :=
  match fuel with
  | O => (Z.to_N v, d)
  | S fuel' =>
      match candidate x v d k with
      | Some r => r
      | None => search x v d (S k) fuel'
      end
  end.

Definition exponential_text (s : N) (n : nat) : string :=
  let ds := pretty s in
  let e := pretty (N.of_nat (n - 1)) in
  match ds with
  | String c "" => String c "" +:+ "e+" +:+ e
  | String c rest => String c "" +:+ "." +:+ rest +:+ "e+" +:+ e
  | "" => ""
  end.

Definition toString_large (m : positive) (e : Z) : string :=
  let v := (Z.pos m * 2 ^ e)%Z in
  let d := String.length (pretty (Z.to_N v)) in
  let '(s, n) := search (S754_finite false m e) v d 1 d in
  exponential_text s n.

(** [x.toFixed(f)] for [0 <= f <= 100]. *)
Definition toFixed (x : number) (f : nat) : string :=
  match x with
  | S754_nan => "NaN"
  | S754_infinity false => "Infinity"
  | S754_infinity true => "-Infinity"
  | S754_zero _ => fixed_text 0 f
  | S754_finite neg m e =>
      (if neg then "-" else "") +:+
      (if ge_1e21 m e then toString_large m e
       else fixed_text (nearest_scaled m e f) f)
  end.

End Number.

(** ** React hooks *)

Module React.

(** [useMemo(() => f(deps), deps)]: a memo cell holds the dependencies
    and the value of the last computation; the value is computed again
    when the dependencies differ from the stored ones.  React compares a
    dependency with [Object.is]: strings by content, arrays by identity.
    The model compares contents; no array of the page is ever mutated, so
    where React computes again on a new array of the same content, the
    model reuses the stored value of that same computation. *)
Definition useMemo {D V} `{EqDecision D}
    (cell : option (D * V)) (deps : D) (f : D → V) : V * option (D * V) :=
  match cell with
  | Some (d, v) =>
      if decide (d = deps) then (v, cell) else (f deps, Some (deps, f deps))
  | None => (f deps, Some (deps, f deps))
  end.

(** A memo cell is coherent with [f] when the value it holds is the
    value of [f] at the dependencies it holds. *)
Definition coherent {D V} (f : D → V) (cell : option (D * V)) : Prop :=
  ∀ d v, cell = Some (d, v) → v = f d.

End React.

(** ** [utils/routeMapping.ts] *)

Module RouteMapping.

Definition ROUTE_NAMES : gmap string string :=
  list_to_map [
    ("AKLDEL", "Auckland → Delhi");
    ("AKLHGH", "Auckland → Hangzhou");
    ("AKLHND", "Auckland → Tokyo (Haneda)");
    ("AKLICN", "Auckland → Seoul (Incheon)");
    ("AKLKIX", "Auckland → Osaka (Kansai)");
    ("AKLKTM", "Auckland → Kathmandu");
    ("AKLKUL", "Auckland → Kuala Lumpur");
    ("AKLNRT", "Auckland → Tokyo (Narita)");
    ("AKLPVG", "Auckland → Shanghai");
    ("AKLSIN", "Auckland → Singapore");
    ("AKLTPE", "Auckland → Taipei");
    ("MELBKK", "Melbourne → Bangkok");
    ("MELDEL", "Melbourne → Delhi");
    ("MELHKG", "Melbourne → Hong Kong");
    ("MELSIN", "Melbourne → Singapore");
    ("SYDBKK", "Sydney → Bangkok");
    ("SYDDEL", "Sydney → Delhi");
    ("SYDHKG", "Sydney → Hong Kong");
    ("SYDSIN", "Sydney → Singapore")
  ].

(** [ROUTE_NAMES[routeCode] || routeCode] *)
Definition getRouteName (routeCode : string) : string :=
  JS.or_else (ROUTE_NAMES !! routeCode) routeCode.

End RouteMapping.

(** ** Booking rows *)

(** [type Row = Record<string, string>]: one parsed CSV line (with
    [dynamicTyping: false] every field present is a string); a field is
    read with [row !! "field"], which is [None] when the line has no such
    field. *)
Abbreviation Row := (gmap string string).

(** ** The [ChartPanel] component ([./components/ChartPanel]): the four
    projections *)

Module ChartPanel.

(** [{ name, value }]; the counts are Numbers holding exact integers (an
    array has fewer than 2^32 elements), kept as [nat]. *)
Record NameValue := { name : string; value : nat }.
Record RouteCount := { route : string; count : nat }.
Record RouteAvg := { avg_route : string; avg : Number.number }.
Record SumCount := { sum : Number.number; c : nat }.

#[global] Instance NameValue_eq_dec : EqDecision NameValue.
Proof. solve_decision. Defined.
#[global] Instance RouteCount_eq_dec : EqDecision RouteCount.
Proof. solve_decision. Defined.
#[global] Instance RouteAvg_eq_dec : EqDecision RouteAvg.
Proof. solve_decision. Defined.

(** [counts[key] = (counts[key] || 0) + 1] *)
Definition bump (counts : JS.Obj nat) (key : string) : JS.Obj nat :=
  JS.set counts key (default 0 (JS.get counts key) + 1).

(** [String(r.booking_complete ?? '0')] *)
Definition completion_key (r : Row) : string :=
  JS.nullish (r !! "booking_complete") "0".

(** [([k, v]) => ({ name: k === '1' ? 'Complete' : 'Incomplete', value: v })] *)
Definition completion_entry (p : string * nat) : NameValue :=
  {| name := if bool_decide (p.1 = "1") then "Complete" else "Incomplete";
     value := p.2 |}.

Definition byCompletion (data : list Row) : list NameValue :=
  if bool_decide (length data = 0) then []
  else
    let counts := foldl (λ counts r, bump counts (completion_key r)) [] data in
    completion_entry <$> JS.Object_entries counts.

(** [r.trip_type || 'Unknown'] *)
Definition trip_key (r : Row) : string := JS.or_else (r !! "trip_type") "Unknown".

(** [([name, value]) => ({ name, value })] *)
Definition trip_entry (p : string * nat) : NameValue :=
  {| name := p.1; value := p.2 |}.

Definition byTripType (data : list Row) : list NameValue :=
  if bool_decide (length data = 0) then []
  else
    let counts := foldl (λ counts r, bump counts (trip_key r)) [] data in
    trip_entry <$> JS.Object_entries counts.

(** [r.route || 'Unknown'] *)
Definition route_key (r : Row) : string := JS.or_else (r !! "route") "Unknown".

(** [(a, b) => b[1] - a[1]] *)
Definition by_count_desc (a b : string * nat) : Z := (Z.of_nat b.2 - Z.of_nat a.2)%Z.

(** [([route, count]) => ({ route: getRouteName(route), count })] *)
Definition route_entry (p : string * nat) : RouteCount :=
  {| route := RouteMapping.getRouteName p.1; count := p.2 |}.

Definition topRoutes (data : list Row) : list RouteCount :=
  if bool_decide (length data = 0) then []
  else
    let counts := foldl (λ counts r, bump counts (route_key r)) [] data in
    route_entry <$> take 10 (JS.Array_sort by_count_desc (JS.Object_entries counts)).

(** [Number(r.purchase_lead) || 0] *)
Definition lead (r : Row) : Number.number :=
  Number.or_else (Number.ToNumber (r !! "purchase_lead")) Number.zero.

(** The body of the [forEach] of [avgLeadByRoute]. *)
Definition accumulate (sums : JS.Obj SumCount) (r : Row) : JS.Obj SumCount :=
  let route := route_key r in
  let val := lead r in
  let sums := JS.set sums route (default {| sum := Number.zero; c := 0 |} (JS.get sums route)) in
  let obj := default {| sum := Number.zero; c := 0 |} (JS.get sums route) in
  JS.set sums route {| sum := Number.add (sum obj) val; c := c obj + 1 |}.

(** [+(obj.sum / obj.c).toFixed(1)] *)
Definition rounded_avg (obj : SumCount) : Number.number :=
  Number.StringToNumber (Number.toFixed (Number.div (sum obj) (Number.of_nat (c obj))) 1).

(** [([route, obj]) => ({ route: getRouteName(route), avg: ... })] *)
Definition avg_entry (p : string * SumCount) : RouteAvg :=
  {| avg_route := RouteMapping.getRouteName p.1; avg := rounded_avg p.2 |}.

Definition avgLeadByRoute (data : list Row) : list RouteAvg :=
  if bool_decide (length data = 0) then []
  else
    let sums := foldl accumulate [] data in
    avg_entry <$> take 12 (JS.Object_entries sums).

(** The component: its four memo cells, and one rendering. *)
Record Memo := {
  memo_byCompletion : option (list Row * list NameValue);
  memo_byTripType : option (list Row * list NameValue);
  memo_topRoutes : option (list Row * list RouteCount);
  memo_avgLeadByRoute : option (list Row * list RouteAvg)
}.

Record Charts := {
  chart_byCompletion : list NameValue;
  chart_byTripType : list NameValue;
  chart_topRoutes : list RouteCount;
  chart_avgLeadByRoute : list RouteAvg
}.

Definition mount : Memo :=
  {| memo_byCompletion := None; memo_byTripType := None;
     memo_topRoutes := None; memo_avgLeadByRoute := None |}.

Definition render (m : Memo) (data : list Row) : Charts * Memo :=
  let '(v1, c1) := React.useMemo (memo_byCompletion m) data byCompletion in
  let '(v2, c2) := React.useMemo (memo_byTripType m) data byTripType in
  let '(v3, c3) := React.useMemo (memo_topRoutes m) data topRoutes in
  let '(v4, c4) := React.useMemo (memo_avgLeadByRoute m) data avgLeadByRoute in
  ({| chart_byCompletion := v1; chart_byTripType := v2;
      chart_topRoutes := v3; chart_avgLeadByRoute := v4 |},
   {| memo_byCompletion := c1; memo_byTripType := c2;
      memo_topRoutes := c3; memo_avgLeadByRoute := c4 |}).

End ChartPanel.

(** ** [App.tsx] *)

Module App.

(** [routes]: [Array.from(new Set(data.map(r => r.route).filter(Boolean))).sort()] *)
Definition facet (field : string) (data : list Row) : list string :=
  JS.Array_sort JS.default_cmp
    (JS.new_Set (JS.filter_Boolean ((λ r : Row, r !! field) <$> data))).

Definition routes (data : list Row) : list string := facet "route" data.
Definition tripTypes (data : list Row) : list string := facet "trip_type" data.

(** [filteredData] *)
Definition keep (selectedRoute selectedTripType : string) (row : Row) : bool :=
  if JS.truthy selectedRoute && JS.strict_ne (row !! "route") selectedRoute then false
  else if JS.truthy selectedTripType && JS.strict_ne (row !! "trip_type") selectedTripType then false
  else true.

Definition filteredData (data : list Row) (selectedRoute selectedTripType : string) : list Row :=
  List.filter (keep selectedRoute selectedTripType) data.

(** [stats] *)
Record Stats := {
  total : nat;
  completed : nat;
  completionRate : string;
  avgPassengers : string;
  uniqueRoutes : nat
}.

(** [Number(r.num_passengers || 0)] *)
Definition passengers (r : Row) : Number.number :=
  if JS.truthy_opt (r !! "num_passengers")
  then Number.ToNumber (r !! "num_passengers")
  else Number.zero.

Definition stats (filteredData : list Row) : Stats :=
  let completed :=
    length (List.filter (λ r : Row, bool_decide (r !! "booking_complete" = Some "1"))
                        filteredData) in
  let total := length filteredData in
  let completionRate :=
    if (0 <? total)%nat
    then Number.toFixed
           (Number.mul (Number.div (Number.of_nat completed) (Number.of_nat total))
                       (Number.of_Z 100)) 1
    else "0" in
  let avgPassengers :=
    if (0 <? total)%nat
    then Number.toFixed
           (Number.div
              (foldl (λ sum r, Number.add sum (passengers r)) Number.zero filteredData)
              (Number.of_nat total)) 1
    else "0" in
  let uniqueRoutes := length (JS.new_Set ((λ r : Row, r !! "route") <$> filteredData)) in
  {| total := total; completed := completed; completionRate := completionRate;
     avgPassengers := avgPassengers; uniqueRoutes := uniqueRoutes |}.

(** The component state: the [useState] cells, the memo cells of [App]
    and the memo cells of its four chart panels. *)
Record State := {
  data : list Row;
  loading : bool;
  selectedRoute : string;
  selectedTripType : string;
  isDark : bool;
  showGlobe3D : bool;
  memo_routes : option (list Row * list string);
  memo_tripTypes : option (list Row * list string);
  memo_filteredData : option (list Row * string * string * list Row);
  memo_stats : option (list Row * Stats);
  panel_bar : ChartPanel.Memo;
  panel_pie : ChartPanel.Memo;
  panel_horizontalBar : ChartPanel.Memo;
  panel_area : ChartPanel.Memo
}.

(** What one rendering hands to the filters, the stat cards and the four
    charts. *)
Record View := {
  view_routes : list string;
  view_tripTypes : list string;
  view_filteredData : list Row;
  view_stats : Stats;
  view_byCompletion : list ChartPanel.NameValue;
  view_byTripType : list ChartPanel.NameValue;
  view_topRoutes : list ChartPanel.RouteCount;
  view_avgLeadByRoute : list ChartPanel.RouteAvg
}.

Definition mount : State :=
  {| data := []; loading := true; selectedRoute := ""; selectedTripType := "";
     isDark := true; showGlobe3D := false;
     memo_routes := None; memo_tripTypes := None;
     memo_filteredData := None; memo_stats := None;
     panel_bar := ChartPanel.mount; panel_pie := ChartPanel.mount;
     panel_horizontalBar := ChartPanel.mount; panel_area := ChartPanel.mount |}.

Definition render (s : State) : View * State :=
  let '(rs, c1) := React.useMemo (memo_routes s) (data s) routes in
  let '(ts, c2) := React.useMemo (memo_tripTypes s) (data s) tripTypes in
  let '(fd, c3) :=
    React.useMemo (memo_filteredData s) (data s, selectedRoute s, selectedTripType s)
      (λ '(d, r, t), filteredData d r t) in
  let '(st, c4) := React.useMemo (memo_stats s) fd stats in
  let '(bar, p1) := ChartPanel.render (panel_bar s) fd in
  let '(pie, p2) := ChartPanel.render (panel_pie s) fd in
  let '(hbar, p3) := ChartPanel.render (panel_horizontalBar s) fd in
  let '(area, p4) := ChartPanel.render (panel_area s) fd in
  ({| view_routes := rs; view_tripTypes := ts; view_filteredData := fd; view_stats := st;
      view_byCompletion := ChartPanel.chart_byCompletion bar;
      view_byTripType := ChartPanel.chart_byTripType pie;
      view_topRoutes := ChartPanel.chart_topRoutes hbar;
      view_avgLeadByRoute := ChartPanel.chart_avgLeadByRoute area |},
   {| data := data s; loading := loading s;
      selectedRoute := selectedRoute s; selectedTripType := selectedTripType s;
      isDark := isDark s; showGlobe3D := showGlobe3D s;
      memo_routes := c1; memo_tripTypes := c2; memo_filteredData := c3; memo_stats := c4;
      panel_bar := p1; panel_pie := p2; panel_horizontalBar := p3; panel_area := p4 |}).

(** The state setters reachable from the page and from the loading
    effect. *)
Inductive Event :=
| setData (rows : list Row)
| setLoading (b : bool)
| setSelectedRoute (r : string)
| setSelectedTripType (t : string)
| setIsDark (b : bool)
| setShowGlobe3D (b : bool).

Definition update (s : State) (ev : Event) : State :=
  let with_cells d l r t k g :=
    {| data := d; loading := l; selectedRoute := r; selectedTripType := t;
       isDark := k; showGlobe3D := g;
       memo_routes := memo_routes s; memo_tripTypes := memo_tripTypes s;
       memo_filteredData := memo_filteredData s; memo_stats := memo_stats s;
       panel_bar := panel_bar s; panel_pie := panel_pie s;
       panel_horizontalBar := panel_horizontalBar s; panel_area := panel_area s |} in
  match ev with
  | setData rows =>
      with_cells rows (loading s) (selectedRoute s) (selectedTripType s) (isDark s) (showGlobe3D s)
  | setLoading b =>
      with_cells (data s) b (selectedRoute s) (selectedTripType s) (isDark s) (showGlobe3D s)
  | setSelectedRoute r =>
      with_cells (data s) (loading s) r (selectedTripType s) (isDark s) (showGlobe3D s)
  | setSelectedTripType t =>
      with_cells (data s) (loading s) (selectedRoute s) t (isDark s) (showGlobe3D s)
  | setIsDark b =>
      with_cells (data s) (loading s) (selectedRoute s) (selectedTripType s) b (showGlobe3D s)
  | setShowGlobe3D b =>
      with_cells (data s) (loading s) (selectedRoute s) (selectedTripType s) (isDark s) b
  end.

(** A state change is followed by a rendering. *)
Definition step (s : State) (ev : Event) : State := (render (update s ev)).2.

(** The session after the first rendering and the events [evs]. *)
Definition run (evs : list Event) : State := foldl step (render mount).2 evs.

(** What the page shows in state [s]. *)
Definition view (s : State) : View := (render s).1.

End App.

(** ** Vocabulary of the specification *)

Module Spec.

(** A record passes the selection [(r, t)]. *)
Definition passes (r t : string) (row : Row) : Prop :=
  (r = "" ∨ row !! "route" = Some r) ∧ (t = "" ∨ row !! "trip_type" = Some t).

#[global] Instance passes_dec r t row : Decision (passes r t row).
Proof. unfold passes. apply _. Defined.

(** Number of occurrences of the key [k] among [keys]. *)
Definition occurrences (k : string) (keys : list string) : nat :=
  length (filter (λ x, x = k) keys).


(** One entry per distinct key, in the order the keys are first met,
    with its number of occurrences. *)
Definition tally (keys : list string) : list (string * nat) :=
  (λ k, (k, occurrences k keys)) <$> JS.new_Set keys.







Definition is_finite (x : Number.number) : bool :=
  match x with
  | S754_zero _ | S754_finite _ _ _ => true
  | _ => false
  end.

(** The pipeline as a function of the store and the selection. *)
Definition pipeline (data : list Row) (r t : string) : App.View :=
  let fd := App.filteredData data r t in
  {| App.view_routes := App.routes data;
     App.view_tripTypes := App.tripTypes data;
     App.view_filteredData := fd;
     App.view_stats := App.stats fd;
     App.view_byCompletion := ChartPanel.byCompletion fd;
     App.view_byTripType := ChartPanel.byTripType fd;
     App.view_topRoutes := ChartPanel.topRoutes fd;
     App.view_avgLeadByRoute := ChartPanel.avgLeadByRoute fd |}.

(** The memo cells of a panel and of the page hold values of the
    functions they memoize. *)
Definition panel_coherent (m : ChartPanel.Memo) : Prop :=
  React.coherent ChartPanel.byCompletion (ChartPanel.memo_byCompletion m)
  ∧ React.coherent ChartPanel.byTripType (ChartPanel.memo_byTripType m)
  ∧ React.coherent ChartPanel.topRoutes (ChartPanel.memo_topRoutes m)
  ∧ React.coherent ChartPanel.avgLeadByRoute (ChartPanel.memo_avgLeadByRoute m).

Definition state_coherent (s : App.State) : Prop :=
  React.coherent App.routes (App.memo_routes s)
  ∧ React.coherent App.tripTypes (App.memo_tripTypes s)
  ∧ React.coherent (λ '(d, r, t), App.filteredData d r t) (App.memo_filteredData s)
  ∧ React.coherent App.stats (App.memo_stats s)
  ∧ panel_coherent (App.panel_bar s)
  ∧ panel_coherent (App.panel_pie s)
  ∧ panel_coherent (App.panel_horizontalBar s)
  ∧ panel_coherent (App.panel_area s).

(** A small record store for the scenarios. *)
Definition row (route trip_type booking_complete purchase_lead : string) : Row :=
  {[ "route" := route; "trip_type" := trip_type;
     "booking_complete" := booking_complete; "purchase_lead" := purchase_lead ]}.

Definition three_records : list Row := [
  row "AKLDEL" "RoundTrip" "1" "10";
  row "AKLDEL" "RoundTrip" "0" "20";
  row "SYDBKK" "OneWay" "1" "5"
].

End Spec.

(** ** More of the JavaScript library *)

Module Text.

(** [s.substring(start, finish)]: the two positions are swapped when
    [finish < start] and both are cut down to the length of [s].  On UTF-8
    bytes this is the JavaScript substring as long as the characters up to
    [finish] are ASCII. *)
Definition substring (s : string) (start finish : nat) : string :=
  let a := Nat.min start finish in
  let b := Nat.max start finish in
  Number.take_str (b - a) (Number.drop_str a s).

End Text.

Module JSMap.

(** A [Map] with string keys: its entries in the order in which the keys
    were first set. *)
Definition Map (V : Type) : Type := list (string * V).

(** [m.has(k)] *)
Definition has {V} (m : Map V) (k : string) : bool :=
  bool_decide (is_Some (JS.get m k)).

(** [m.set(k, v)]: a key already present keeps its place. *)
Definition set {V} (m : Map V) (k : string) (v : V) : Map V := JS.set m k v.

End JSMap.

(** ** [routeMapping.ts]: the list of codes *)

Module RouteCodes.



End RouteCodes.

(** ** The [Filters] component *)

Module Filters.

(** [<option value={value}>{text}</option>] *)
Record Choice := { value : string; text : string }.

#[global] Instance Choice_eq_dec : EqDecision Choice.
Proof. solve_decision. Defined.

Definition route_options (routes : list string) : list Choice :=
  {| value := ""; text := "All Routes" |}
    :: ((λ r, {| value := r; text := RouteMapping.getRouteName r |}) <$> routes).

Definition trip_options (tripTypes : list string) : list Choice :=
  {| value := ""; text := "All Types" |}
    :: ((λ t, {| value := t; text := t |}) <$> tripTypes).

(** [onChange={(e) => onRouteChange(e.target.value)}] and its twin, with
    the setters that [App] passes. *)
Definition onRouteChange (choice : Choice) : App.Event := App.setSelectedRoute (value choice).
Definition onTripTypeChange (choice : Choice) : App.Event :=
  App.setSelectedTripType (value choice).

End Filters.

(** ** The pie chart of [ChartPanel] *)

Module Pie.

Definition COLORS : list string :=
  ["#7c3aed"; "#06b6d4"; "#ec4899"; "#10b981"; "#f59e0b"; "#ef4444"; "#8b5cf6"; "#14b8a6"].

(** [COLORS[index % COLORS.length]]; [None] is [undefined]. *)
Definition fill (index : nat) : option string := COLORS !! (index mod length COLORS).

(** [byTripType.map((entry, index) => <Cell fill={...} />)] *)
Definition cells (byTripType : list ChartPanel.NameValue) : list (option string) :=
  imap (λ index _, fill index) byTripType.

End Pie.

(** ** Airports *)

Module Airport.

(** [{ lat, lng, city }] *)
Record Coords := { lat : Number.number; lng : Number.number; city : string }.

(** An entry written with the numeric literals of the source. *)
Definition coords (lat lng city : string) : Coords :=
  {| lat := Number.StringToNumber lat; lng := Number.StringToNumber lng; city := city |}.

End Airport.

(** ** The [RouteMap] component *)

Module RouteMap.

Import Airport.

Definition airportCoordinates : gmap string Coords := list_to_map [
  ("AKL", coords "-37.0082" "174.7850" "Auckland");
  ("DEL", coords "28.5562" "77.1000" "Delhi");
  ("HGH", coords "30.2294" "120.4342" "Hangzhou");
  ("HND", coords "35.5494" "139.7798" "Tokyo");
  ("ICN", coords "37.4602" "126.4407" "Seoul");
  ("KIX", coords "34.4273" "135.2440" "Osaka");
  ("KTM", coords "27.6966" "85.3591" "Kathmandu");
  ("KUL", coords "2.7456" "101.7072" "Kuala Lumpur");
  ("MEL", coords "-37.6690" "144.8410" "Melbourne");
  ("MNL", coords "14.5086" "121.0194" "Manila");
  ("NRT", coords "35.7720" "140.3929" "Tokyo Narita");
  ("PEK", coords "40.0799" "116.6031" "Beijing");
  ("PVG", coords "31.1443" "121.8083" "Shanghai");
  ("SGN", coords "10.8231" "106.6297" "Ho Chi Minh");
  ("SIN", coords "1.3644" "103.9915" "Singapore");
  ("SYD", coords "-33.9399" "151.1753" "Sydney")
].

Record RouteLine := {
  route : string;
  origin : string;
  dest : string;
  count : nat;
  originCoords : Coords;
  destCoords : Coords
}.

(** The callback of [.map] in [routeCounts]; [None] is [null]. *)
Definition line (p : string * nat) : option RouteLine :=
  let origin := Text.substring p.1 0 3 in
  let dest := Text.substring p.1 3 6 in
  match airportCoordinates !! origin, airportCoordinates !! dest with
  | Some o, Some d =>
      Some {| route := p.1; origin := origin; dest := dest; count := p.2;
              originCoords := o; destCoords := d |}
  | _, _ => None
  end.

(** Both halves of the route are airports of the table. *)
Definition known (route : string) : bool :=
  bool_decide (is_Some (airportCoordinates !! Text.substring route 0 3))
  && bool_decide (is_Some (airportCoordinates !! Text.substring route 3 6)).

(** The two airports of each line, in the order in which [uniqueAirports]
    meets them. *)
Definition endpoints (routeCounts : list RouteLine) : list string :=
  routeCounts ≫= λ r, [origin r; dest r].

(** [routeCounts]: the counting loop is the one of [topRoutes]. *)
Definition routeCounts (data : list Row) : list RouteLine :=
  if bool_decide (length data = 0) then []
  else
    let counts := foldl (λ counts r, ChartPanel.bump counts (ChartPanel.route_key r)) [] data in
    omap line (JS.Object_entries counts).

(** [Math.max(...routeCounts.map(r => r.count), 1)] *)
Definition maxCount (routeCounts : list RouteLine) : nat :=
  max_list ((count <$> routeCounts) ++ [1]).

(** [uniqueAirports]: the entries of the map, as [{ code, coords }]. *)
Definition uniqueAirports (routeCounts : list RouteLine) : list (string * Coords) :=
  foldl (λ airports r,
           JSMap.set (JSMap.set airports (origin r) (originCoords r))
                     (dest r) (destCoords r))
        [] routeCounts.

End RouteMap.

(** ** The [Globe3D] component *)

Module Globe3D.

Import Airport.

Definition airportCoordinates : gmap string Coords := list_to_map [
  ("AKL", coords "-37.0082" "174.7850" "Auckland");
  ("DEL", coords "28.5562" "77.1000" "Delhi");
  ("HGH", coords "30.2294" "120.4342" "Hangzhou");
  ("HND", coords "35.5494" "139.7798" "Tokyo");
  ("ICN", coords "37.4602" "126.4407" "Seoul");
  ("KIX", coords "34.4273" "135.2440" "Osaka");
  ("KTM", coords "27.6966" "85.3591" "Kathmandu");
  ("KUL", coords "2.7456" "101.7072" "Kuala Lumpur");
  ("MEL", coords "-37.6690" "144.8410" "Melbourne");
  ("MNL", coords "14.5086" "121.0194" "Manila");
  ("NRT", coords "35.7720" "140.3929" "Tokyo Narita");
  ("PEK", coords "40.0799" "116.6031" "Beijing");
  ("PVG", coords "31.1443" "121.8083" "Shanghai");
  ("SGN", coords "10.8231" "106.6297" "Ho Chi Minh");
  ("SIN", coords "1.3644" "103.9915" "Singapore");
  ("SYD", coords "-33.9399" "151.1753" "Sydney")
].

Record Arc := {
  startLat : Number.number;
  startLng : Number.number;
  endLat : Number.number;
  endLng : Number.number;
  count : nat;
  route : string
}.

Record Place := {
  place_lat : Number.number;
  place_lng : Number.number;
  name : string;
  code : string
}.

(** The callback of [.map] in [arcs]; [None] is [null]. *)
Definition arc (p : string * nat) : option Arc :=
  let origin := Text.substring p.1 0 3 in
  let dest := Text.substring p.1 3 6 in
  match airportCoordinates !! origin, airportCoordinates !! dest with
  | Some o, Some d =>
      Some {| startLat := lat o; startLng := lng o; endLat := lat d; endLng := lng d;
              count := p.2; route := p.1 |}
  | _, _ => None
  end.

Definition arcsData (data : list Row) : list Arc :=
  if bool_decide (length data = 0) then []
  else
    let counts := foldl (λ counts r, ChartPanel.bump counts (ChartPanel.route_key r)) [] data in
    omap arc (JS.Object_entries counts).

(** [if (!airportsMap.has(code)) airportsMap.set(code, {...})]; reading
    [airportCoordinates[code].city] throws when the code has no entry:
    [None] is that exception. *)
Definition see (airportsMap : JSMap.Map Place) (code : string) (lat lng : Number.number) :
    option (JSMap.Map Place) :=
  if JSMap.has airportsMap code then Some airportsMap
  else
    c ← airportCoordinates !! code;
    Some (JSMap.set airportsMap code
            {| place_lat := lat; place_lng := lng;
               name := code +:+ " - " +:+ city c; code := code |}).

(** The body of [arcs.forEach]. *)
Definition visit (airportsMap : JSMap.Map Place) (a : Arc) : option (JSMap.Map Place) :=
  let origin := Text.substring (route a) 0 3 in
  let dest := Text.substring (route a) 3 6 in
  m ← see airportsMap origin (startLat a) (startLng a);
  see m dest (endLat a) (endLng a).

Fixpoint forEach_visit (arcs : list Arc) (airportsMap : JSMap.Map Place) :
    option (JSMap.Map Place) :=
  match arcs with
  | [] => Some airportsMap
  | a :: arcs' => m ← visit airportsMap a; forEach_visit arcs' m
  end.

(** The arc drawn for a line of the flat map, and the place drawn for an
    airport of the flat map. *)
Definition of_line (l : RouteMap.RouteLine) : Arc :=
  {| startLat := lat (RouteMap.originCoords l); startLng := lng (RouteMap.originCoords l);
     endLat := lat (RouteMap.destCoords l); endLng := lng (RouteMap.destCoords l);
     count := RouteMap.count l; route := RouteMap.route l |}.

Definition of_airport (a : string * Coords) : Place :=
  {| place_lat := lat a.2; place_lng := lng a.2;
     name := a.1 +:+ " - " +:+ city a.2; code := a.1 |}.

(** [placesData]: [Array.from(airportsMap.values())]. *)
Definition placesData (data : list Row) : option (list Place) :=
  (λ m : JSMap.Map Place, m.*2) <$> forEach_visit (arcsData data) [].

(** [Math.max(...arcsData.map(a => a.count), 1)] *)
Definition maxCount (arcsData : list Arc) : nat :=
  max_list ((count <$> arcsData) ++ [1]).

End Globe3D.

(** The airport tables are looked up, never unfolded, in the proofs. *)
#[global] Opaque RouteMap.airportCoordinates Globe3D.airportCoordinates.

(** ** The theme and [localStorage] *)

Module Theme.

(** The second effect of [App], run after the first rendering: the value
    of [isDark] once the effect has run. *)
Definition load (storage : gmap string string) (isDark : bool) : bool :=
  match storage !! "theme" with
  | Some saved => if JS.truthy saved then bool_decide (saved = "dark") else isDark
  | None => isDark
  end.

(** The third effect, run after a rendering in which [isDark] is new. *)
Definition save (storage : gmap string string) (isDark : bool) : gmap string string :=
  <["theme" := if isDark then "dark" else "light"]> storage.

(** Opening the page: the first rendering has [isDark = true]; its effects
    run in source order, each once (the repeated effects of React's
    development-only StrictMode are not modelled); if [load] changed the
    state, the page renders again and [save] runs again. *)
Definition mount (storage : gmap string string) : bool * gmap string string :=
  let isDark := true in
  let next := load storage isDark in
  let storage := save storage isDark in
  if bool_decide (next = isDark) then (isDark, storage) else (next, save storage next).

(** [onToggle={() => setIsDark(!isDark)}], followed by the rendering and
    [save]. *)
Definition toggle (s : bool * gmap string string) : bool * gmap string string :=
  let isDark := negb s.1 in (isDark, save s.2 isDark).

End Theme.

(** ** Loading the dataset *)

Module Loading.

(** The outcome of the first effect of [App]: [Some rows] when the file
    was fetched and parsed into [rows], [None] when the promise was
    rejected (the error is logged).  [finally] clears [loading] in both
    cases. *)
Definition events (outcome : option (list Row)) : list App.Event :=
  match outcome with
  | Some rows => [App.setData rows; App.setLoading false]
  | None => [App.setLoading false]
  end.

(** An event that does not replace the record store. *)
Definition keeps_data (ev : App.Event) : bool :=
  match ev with
  | App.setData _ => false
  | _ => true
  end.


End Loading.

Example ex_entries :
  JS.Object_entries [("b", 1); ("10", 2); ("a", 3); ("2", 4); ("01", 5)]
  = [("2", 4); ("10", 2); ("b", 1); ("a", 3); ("01", 5)].
Proof. vm_compute. reflexivity. Qed.

Example ex_name : RouteMapping.getRouteName "AKLDEL" = "Auckland → Delhi"
  ∧ RouteMapping.getRouteName "XXXYYY" = "XXXYYY".
Proof. vm_compute. split; reflexivity. Qed.

Example ex_routes :
  App.routes [ {[ "route" := "SYDBKK" ]}; {[ "trip_type" := "x" ]}; {[ "route" := "" ]};
               {[ "route" := "AKLDEL" ]}; {[ "route" := "SYDBKK" ]} ]
  = ["AKLDEL"; "SYDBKK"].
Proof. vm_compute. reflexivity. Qed.

Example ex_num :
  Number.StringToNumber "10" = Number.of_Z 10
  ∧ Number.StringToNumber "  1.5e1 " = Number.of_Z 15
  ∧ Number.StringToNumber "0x1F" = Number.of_Z 31
  ∧ Number.StringToNumber "-0" = S754_zero true
  ∧ Number.StringToNumber "" = Number.zero
  ∧ Number.StringToNumber "abc" = Number.NaN
  ∧ Number.StringToNumber "1e999" = S754_infinity false
  ∧ Number.StringToNumber "-Infinity" = S754_infinity true
  ∧ Number.StringToNumber "." = Number.NaN
  ∧ Number.StringToNumber "5." = Number.of_Z 5
  ∧ Number.StringToNumber ".5" = Number.div (Number.of_Z 1) (Number.of_Z 2)
  ∧ Number.StringToNumber "0.35" = S754_finite false 6305039478318694 (-54)
  ∧ Number.StringToNumber "1e" = Number.NaN
  ∧ Number.StringToNumber "1 2" = Number.NaN
  ∧ Number.StringToNumber "12px" = Number.NaN.
Proof. vm_compute. repeat split; reflexivity. Qed.

Example ex_toFixed :
  Number.toFixed (Number.of_Z 15) 1 = "15.0"
  ∧ Number.toFixed (Number.StringToNumber "0.35") 1 = "0.3"
  ∧ Number.toFixed (Number.StringToNumber "0.25") 1 = "0.3"
  ∧ Number.toFixed (Number.StringToNumber "-0.25") 1 = "-0.3"
  ∧ Number.toFixed (Number.StringToNumber "1.45") 1 = "1.4"
  ∧ Number.toFixed (Number.StringToNumber "0.04") 1 = "0.0"
  ∧ Number.toFixed (Number.StringToNumber "-0.04") 1 = "-0.0"
  ∧ Number.toFixed (Number.StringToNumber "-0") 1 = "0.0"
  ∧ Number.toFixed (Number.StringToNumber "99.95") 1 = "100.0"
  ∧ Number.toFixed (Number.StringToNumber "1e21") 1 = "1e+21"
  ∧ Number.toFixed (Number.StringToNumber "-1.5e300") 1 = "-1.5e+300"
  ∧ Number.toFixed (Number.StringToNumber "1180591620717411303424") 1 = "1.1805916207174113e+21"
  ∧ Number.toFixed (Number.StringToNumber "999999999999999999999") 1 = "1e+21"
  ∧ Number.toFixed (Number.StringToNumber "123456789012345678901") 1 = "123456789012345683968.0"
  ∧ Number.toFixed (Number.StringToNumber "1.7976931348623157e308") 1 = "1.7976931348623157e+308"
  ∧ Number.toFixed (Number.div (Number.of_Z 100) (Number.of_Z 3)) 1 = "33.3"
  ∧ Number.toFixed Number.NaN 1 = "NaN".
Proof. vm_compute. repeat split; reflexivity. Qed.


(** The second scenario of the specification: filtering the three
    records by route [AKLDEL] keeps the first two; [total] is 2 and
    [completionRate] is ["50.0"]. *)
Example ex_filter_by_route :
  App.filteredData Spec.three_records "AKLDEL" "" = take 2 Spec.three_records
  ∧ App.total (App.stats (App.filteredData Spec.three_records "AKLDEL" "")) = 2
  ∧ App.completionRate (App.stats (App.filteredData Spec.three_records "AKLDEL" "")) = "50.0".
Proof.
  split_and!.
  - apply (bool_decide_unpack _). vm_compute. exact I.
  - vm_compute. reflexivity.
  - vm_compute. reflexivity.
Qed.

(** ** Route names *)

(** A code without entry in the table is its own display name. *)
Lemma getRouteName_unmapped (code : string) :
  RouteMapping.ROUTE_NAMES !! code = None → RouteMapping.getRouteName code = code.
Proof. unfold RouteMapping.getRouteName. by intros ->. Qed.

(** A code of the table is displayed under the name the table gives. *)
Lemma getRouteName_mapped (code name : string) :
  RouteMapping.ROUTE_NAMES !! code = Some name → RouteMapping.getRouteName code = name.
Proof.
  unfold RouteMapping.getRouteName. intros Hcode. rewrite Hcode.
  assert (Hne : name ≠ "").
  { assert (Hall : map_Forall (λ _ v, v ≠ "") RouteMapping.ROUTE_NAMES).
    { apply (bool_decide_unpack _). vm_compute. exact I. }
    by apply (Hall code). }
  unfold JS.or_else, JS.truthy. by rewrite bool_decide_eq_false_2.
Qed.

(** ** The filter engine *)

Lemma keep_passes r t (row : Row) : App.keep r t row = true ↔ Spec.passes r t row.
Proof.
  unfold App.keep, Spec.passes, JS.truthy, JS.strict_ne.
  destruct (bool_decide_reflect (r = "")), (bool_decide_reflect (t = "")),
    (bool_decide_reflect (row !! "route" = Some r)),
    (bool_decide_reflect (row !! "trip_type" = Some t));
    simpl; intuition congruence.
Qed.

Lemma filter_keep_passes data r t :
  List.filter (App.keep r t) data = filter (Spec.passes r t) data.
Proof.
  induction data as [|row data IH]; [done|].
  cbn [List.filter]. rewrite filter_cons, IH.
  destruct (App.keep r t row) eqn:E.
  - apply keep_passes in E. by rewrite decide_True.
  - rewrite decide_False; [done|]. intros H%keep_passes. congruence.
Qed.

(** C1. The filtered sequence consists of exactly the records that pass the
    selection (the route selection is empty or equals the record's route,
    and likewise for the trip type), in the order of the store; its length
    is the number of such records.  [filteredData] is a total function. *)
Theorem filteredData_exact (data : list Row) (r t : string) :
  App.filteredData data r t = filter (Spec.passes r t) data
  ∧ sublist (App.filteredData data r t) data
  ∧ (∀ row, row ∈ App.filteredData data r t ↔ row ∈ data ∧ Spec.passes r t row)
  ∧ length (App.filteredData data r t) = length (filter (Spec.passes r t) data).
Proof.
  unfold App.filteredData. rewrite filter_keep_passes.
  split_and!; [done| |intros row; rewrite list_elem_of_filter; tauto|done].
  apply sublist_filter.
Qed.

(** C10. With both selections empty the filter returns the store itself,
    records without route or trip type included. *)
Theorem filteredData_no_selection (data : list Row) :
  App.filteredData data "" "" = data.
Proof.
  unfold App.filteredData. induction data as [|row data IH]; [done|].
  cbn [List.filter]. rewrite IH. reflexivity.
Qed.

(** C8. On the empty filtered sequence the four projections are empty
    sequences and the statistics have [total = 0] and
    [completionRate = "0"]. *)
Theorem empty_sequence :
  ChartPanel.byCompletion [] = []
  ∧ ChartPanel.byTripType [] = []
  ∧ ChartPanel.topRoutes [] = []
  ∧ ChartPanel.avgLeadByRoute [] = []
  ∧ App.total (App.stats []) = 0
  ∧ App.completionRate (App.stats []) = "0".
Proof. split_and!; reflexivity. Qed.

(** ** [Array.prototype.sort] *)

Section Array_sort.
Context {A : Type} (cmp : A → A → Z).

Lemma sort_insert_perm x l : JS.sort_insert cmp x l ≡ₚ x :: l.
Proof.
  induction l as [|y l IH]; simpl; [done|].
  destruct (cmp x y <=? 0)%Z; [done|].
  rewrite IH. apply Permutation_swap.
Qed.

Lemma Array_sort_perm l : JS.Array_sort cmp l ≡ₚ l.
Proof.
  induction l as [|x l IH]; simpl; [done|].
  rewrite sort_insert_perm. by rewrite IH.
Qed.

(** The comparator is consistent. *)
Hypothesis cmp_flip : ∀ x y, (0 < cmp x y)%Z → (cmp y x < 0)%Z.
Hypothesis cmp_trans : ∀ x y z, (cmp x y ≤ 0)%Z → (cmp y z ≤ 0)%Z → (cmp x z ≤ 0)%Z.

(** [before] orders the elements of the input by position. *)
Variable before : A → A → Prop.

Let placed (x y : A) : Prop := (cmp x y ≤ 0)%Z ∧ (cmp x y = 0%Z → before x y).

Lemma sort_insert_sorted x l :
  StronglySorted placed l → Forall (before x) l →
  StronglySorted placed (JS.sort_insert cmp x l).
Proof.
  induction 1 as [|y l Hl IH Hy]; intros Hx; simpl.
  { repeat constructor. }
  apply Forall_cons in Hx as [Hxy Hx].
  destruct (Z.leb_spec (cmp x y) 0) as [Hle|Hgt].
  - constructor; [by constructor|].
    constructor; [by split|].
    rewrite Forall_forall in Hy, Hx |- *. intros z Hz.
    destruct (Hy z Hz) as [Hyz _]. split; [by eapply cmp_trans|auto].
  - constructor; [auto|].
    rewrite sort_insert_perm. constructor; [|done].
    apply cmp_flip in Hgt. split; lia.
Qed.

(** The sort is stable: elements that compare equal keep the order they
    had in the input. *)
Lemma Array_sort_stable l :
  StronglySorted before l →
  StronglySorted (λ x y, (cmp x y ≤ 0)%Z ∧ (cmp x y = 0%Z → before x y))
                 (JS.Array_sort cmp l).
Proof.
  induction 1 as [|x l Hl IH Hx]; simpl; [constructor|].
  apply sort_insert_sorted; [done|].
  by rewrite Array_sort_perm.
Qed.
End Array_sort.

(** ** [Set] *)

Section new_Set.
Context `{EqDecision A}.
Implicit Types l : list A.

Lemma new_Set_snoc l x : JS.new_Set (l ++ [x]) = JS.Set_add (JS.new_Set l) x.
Proof. unfold JS.new_Set. by rewrite foldl_snoc. Qed.

Lemma elem_of_new_Set l x : x ∈ JS.new_Set l ↔ x ∈ l.
Proof.
  induction l as [|y l IH] using rev_ind.
  { done. }
  rewrite new_Set_snoc. unfold JS.Set_add.
  destruct (decide (y ∈ JS.new_Set l)) as [Hy|Hy];
    rewrite !elem_of_app, ?list_elem_of_singleton, IH.
  - split; [auto|]. intros [?| ->]; [done|]. by apply IH.
  - done.
Qed.

Lemma NoDup_new_Set l : NoDup (JS.new_Set l).
Proof.
  induction l as [|y l IH] using rev_ind.
  { constructor. }
  rewrite new_Set_snoc. unfold JS.Set_add.
  destruct (decide (y ∈ JS.new_Set l)) as [Hy|Hy]; [done|].
  apply NoDup_app. split_and!; [done| |apply NoDup_singleton].
  intros x Hx ->%list_elem_of_singleton. done.
Qed.
End new_Set.





(** ** Objects used as dictionaries *)

Section Obj.
Context {V : Type}.
Implicit Types (o : JS.Obj V) (k : string) (v : V).

Lemma get_fmap (f : string → V) (ks : list string) k :
  JS.get ((λ x, (x, f x)) <$> ks) k = if decide (k ∈ ks) then Some (f k) else None.
Proof.
  induction ks as [|x ks IH]; csimpl; [done|].
  destruct (decide (x = k)) as [->|Hne].
  - rewrite decide_True; [done|]. by left.
  - rewrite IH. destruct (decide (k ∈ ks)) as [Hk|Hk].
    + rewrite decide_True; [done|]. by right.
    + rewrite decide_False; [done|]. rewrite not_elem_of_cons. split; [congruence|done].
Qed.

Lemma set_fmap_fresh (f : string → V) (ks : list string) k v :
  k ∉ ks →
  JS.set ((λ x, (x, f x)) <$> ks) k v = (((λ x, (x, f x)) <$> ks) ++ [(k, v)])%list.
Proof.
  induction ks as [|x ks IH]; csimpl; [done|].
  intros [Hne Hk]%not_elem_of_cons.
  rewrite decide_False by congruence. f_equal. by apply IH.
Qed.

Lemma set_fmap_present (f : string → V) (ks : list string) k v :
  NoDup ks → k ∈ ks →
  JS.set ((λ x, (x, f x)) <$> ks) k v
  = (λ x, (x, if decide (x = k) then v else f x)) <$> ks.
Proof.
  induction 1 as [|x ks Hx Hnd IH]; [by intros ?%not_elem_of_nil|].
  intros Hk. csimpl. destruct (decide (x = k)) as [->|Hne].
  - f_equal. apply list_fmap_ext. intros i y Hy%list_elem_of_lookup_2.
    rewrite decide_False; [done|]. congruence.
  - f_equal. apply IH. apply elem_of_cons in Hk as [?|?]; [congruence|done].
Qed.



(** Grouping: each element [r] updates the entry of its key [key r],
    created with [v0] the first time the key is met. *)
Context {E : Type} (key : E → string) (upd : V → E → V) (v0 : V).

Lemma group_foldl (data : list E) :
  foldl (λ o r, JS.set o (key r) (upd (default v0 (JS.get o (key r))) r)) [] data
  = (λ k, (k, foldl upd v0 (filter (λ r, key r = k) data)))
      <$> JS.new_Set (key <$> data).
Proof.
  induction data as [|r data IH] using rev_ind; [done|].
  rewrite foldl_snoc, IH, fmap_app.
  change (key <$> [r]) with [key r]. rewrite new_Set_snoc.
  rewrite get_fmap. unfold JS.Set_add.
  destruct (decide (key r ∈ JS.new_Set (key <$> data))) as [Hin|Hin].
  - rewrite set_fmap_present by (done || apply NoDup_new_Set).
    apply list_fmap_ext. intros i k Hk. f_equal.
    rewrite filter_app, filter_cons, filter_nil.
    destruct (decide (k = key r)) as [->|Hne].
    + rewrite decide_True by done. by rewrite foldl_snoc.
    + rewrite decide_False by done. by rewrite app_nil_r.
  - rewrite set_fmap_fresh by done. rewrite fmap_app. f_equal.
    + apply list_fmap_ext. intros i k Hk%list_elem_of_lookup_2. f_equal.
      rewrite filter_app, filter_cons, filter_nil.
      rewrite decide_False; [by rewrite app_nil_r|].
      intros Heq. apply Hin. by rewrite Heq.
    + simpl. do 2 f_equal.
      rewrite filter_app, filter_cons, filter_nil, decide_True by done.
      rewrite foldl_snoc. f_equal. simpl.
      replace (filter (λ r0, key r0 = key r) data) with (@nil E); [done|].
      symmetry. apply elem_of_nil_inv. intros x [Hx Hd]%list_elem_of_filter.
      apply Hin. apply elem_of_new_Set. rewrite <- Hx.
      by apply list_elem_of_fmap_2.
Qed.
End Obj.

Lemma filter_partition_perm {A} (f : A → bool) (l : list A) :
  (List.filter f l ++ List.filter (λ x, negb (f x)) l)%list ≡ₚ l.
Proof.
  induction l as [|x l IH]; simpl; [done|].
  destruct (f x); simpl.
  - by rewrite IH.
  - rewrite <- Permutation_middle. by rewrite IH.
Qed.

(** [Object.entries] lists every own property once. *)
Lemma Object_entries_perm {V} (o : JS.Obj V) : JS.Object_entries o ≡ₚ o.
Proof.
  unfold JS.Object_entries. rewrite Array_sort_perm. apply filter_partition_perm.
Qed.


(** ** Counting by key *)

Lemma foldl_count {E} (l : list E) (n : nat) : foldl (λ n _, n + 1) n l = n + length l.
Proof.
  revert n. induction l as [|x l IH]; intros n; simpl; [lia|]. rewrite IH. lia.
Qed.

Lemma occurrences_fmap {E} (key : E → string) (k : string) (data : list E) :
  length (filter (λ r, key r = k) data) = Spec.occurrences k (key <$> data).
Proof.
  unfold Spec.occurrences. induction data as [|r data IH]; [done|].
  csimpl. rewrite !filter_cons. destruct (decide (key r = k)); simpl; by rewrite IH.
Qed.

(** After the [forEach], [counts] holds one entry per distinct key, in the
    order in which the keys were first met, with the number of records of
    that key. *)
Lemma counts_foldl {E} (key : E → string) (data : list E) :
  foldl (λ counts r, ChartPanel.bump counts (key r)) [] data
  = Spec.tally (key <$> data).
Proof.
  unfold ChartPanel.bump, Spec.tally.
  rewrite (group_foldl key (λ n _, n + 1) 0 data).
  apply list_fmap_ext. intros i k _. f_equal.
  rewrite foldl_count. simpl. apply occurrences_fmap.
Qed.

Lemma sum_indicator (x : string) (ks : list string) :
  NoDup ks →
  sum_list_with (λ k, if decide (x = k) then 1 else 0) ks = if decide (x ∈ ks) then 1 else 0.
Proof.
  induction 1 as [|k ks Hk Hnd IH]; [done|].
  simpl. rewrite IH. destruct (decide (x = k)) as [->|Hne].
  - rewrite decide_False by done. rewrite decide_True; [done|]. by left.
  - destruct (decide (x ∈ ks)).
    + rewrite decide_True; [done|]. by right.
    + rewrite decide_False; [done|]. rewrite not_elem_of_cons. done.
Qed.

Lemma sum_occurrences (keys ks : list string) :
  NoDup ks → (∀ x, x ∈ keys → x ∈ ks) →
  sum_list_with (λ k, Spec.occurrences k keys) ks = length keys.
Proof.
  intros Hnd. induction keys as [|x keys IH]; intros Hin.
  { clear. induction ks as [|k ks IHks]; [done|]. simpl. by rewrite IHks. }
  assert (Hsplit : ∀ l,
    sum_list_with (λ k, Spec.occurrences k (x :: keys)) l
    = sum_list_with (λ k, if decide (x = k) then 1 else 0) l
      + sum_list_with (λ k, Spec.occurrences k keys) l).
  { induction l as [|k l IHl]; [done|]. simpl. rewrite IHl.
    unfold Spec.occurrences at 1. rewrite filter_cons.
    destruct (decide (x = k)); simpl; unfold Spec.occurrences; lia. }
  rewrite Hsplit, sum_indicator by done.
  rewrite decide_True by (apply Hin; by left).
  rewrite IH; [done|]. intros y Hy. apply Hin. by right.
Qed.

(** ** Completion breakdown *)










(** ** The scenario with three records *)

(** C3 (amended). On the three-record dataset with no filter the
    completion breakdown is [[{Incomplete,1},{Complete,2}]] (the key ["0"]
    is listed before the key ["1"]); the trip types are
    [[{RoundTrip,2},{OneWay,1}]], the top routes
    [[{Auckland → Delhi,2},{Sydney → Bangkok,1}]] and the average leads
    [[{Auckland → Delhi,15},{Sydney → Bangkok,5}]]. *)
Theorem scenario_three_records :
  let data := App.filteredData Spec.three_records "" "" in
  ChartPanel.byCompletion data
  = [ {| ChartPanel.name := "Incomplete"; ChartPanel.value := 1 |};
      {| ChartPanel.name := "Complete"; ChartPanel.value := 2 |} ]
  ∧ ChartPanel.byTripType data
    = [ {| ChartPanel.name := "RoundTrip"; ChartPanel.value := 2 |};
        {| ChartPanel.name := "OneWay"; ChartPanel.value := 1 |} ]
  ∧ ChartPanel.topRoutes data
    = [ {| ChartPanel.route := "Auckland → Delhi"; ChartPanel.count := 2 |};
        {| ChartPanel.route := "Sydney → Bangkok"; ChartPanel.count := 1 |} ]
  ∧ ChartPanel.avgLeadByRoute data
    = [ {| ChartPanel.avg_route := "Auckland → Delhi"; ChartPanel.avg := Number.of_Z 15 |};
        {| ChartPanel.avg_route := "Sydney → Bangkok"; ChartPanel.avg := Number.of_Z 5 |} ].
Proof. vm_compute. split_and!; reflexivity. Qed.

(** C3, as stated, fails on the order of the completion breakdown. *)
Lemma scenario_completion_order :
  ¬ (let data := App.filteredData Spec.three_records "" "" in
     ChartPanel.byCompletion data
     = [ {| ChartPanel.name := "Complete"; ChartPanel.value := 2 |};
         {| ChartPanel.name := "Incomplete"; ChartPanel.value := 1 |} ]
     ∧ ChartPanel.byTripType data
       = [ {| ChartPanel.name := "RoundTrip"; ChartPanel.value := 2 |};
           {| ChartPanel.name := "OneWay"; ChartPanel.value := 1 |} ]
     ∧ ChartPanel.topRoutes data
       = [ {| ChartPanel.route := "Auckland → Delhi"; ChartPanel.count := 2 |};
           {| ChartPanel.route := "Sydney → Bangkok"; ChartPanel.count := 1 |} ]
     ∧ ChartPanel.avgLeadByRoute data
       = [ {| ChartPanel.avg_route := "Auckland → Delhi"; ChartPanel.avg := Number.of_Z 15 |};
           {| ChartPanel.avg_route := "Sydney → Bangkok"; ChartPanel.avg := Number.of_Z 5 |} ]).
Proof. intros [H _]. vm_compute in H. discriminate H. Qed.

(** ** Facets *)

Lemma default_cmp_le (a b : string) : (JS.default_cmp a b ≤ 0)%Z ↔ String.le a b.
Proof.
  unfold JS.default_cmp, String.le, String.leb.
  destruct (a ?= b)%string; simpl; split; (done || lia).
Qed.

Lemma StronglySorted_trivial {A} (l : list A) : StronglySorted (λ _ _, True) l.
Proof. induction l; constructor; [done|]. by apply Forall_forall. Qed.

Lemma facet_spec (field : string) (data : list Row) :
  (∀ s, s ∈ App.facet field data ↔ s ≠ "" ∧ ∃ r : Row, r ∈ data ∧ r !! field = Some s)
  ∧ NoDup (App.facet field data)
  ∧ StronglySorted (λ a b, (a <? b)%string = true) (App.facet field data).
Proof.
  unfold App.facet.
  set (vals := JS.filter_Boolean _).
  assert (Hnd : NoDup (JS.Array_sort JS.default_cmp (JS.new_Set vals))).
  { rewrite Array_sort_perm. apply NoDup_new_Set. }
  split_and!; [|done|].
  - intros s. rewrite Array_sort_perm, elem_of_new_Set. unfold vals, JS.filter_Boolean.
    rewrite list_elem_of_omap. split.
    + intros (v & (r & -> & Hr)%list_elem_of_fmap & Hs).
      unfold JS.truthy_opt, JS.truthy in Hs.
      destruct (r !! field) as [s'|] eqn:E; [|done].
      destruct (bool_decide_reflect (s' = "")); simplify_eq/=. eauto.
    + intros (Hne & r & Hr & Hs). exists (Some s). split.
      * apply list_elem_of_fmap. eauto.
      * unfold JS.truthy_opt, JS.truthy. by rewrite bool_decide_eq_false_2.
  - pose proof (Array_sort_stable JS.default_cmp) as Hsort.
    specialize (Hsort ltac:(
      intros x y; unfold JS.default_cmp; rewrite (String.compare_antisym x y);
      destruct (y ?= x)%string; simpl; lia)).
    specialize (Hsort ltac:(
      intros x y z; rewrite !default_cmp_le; apply transitivity)).
    specialize (Hsort (λ _ _, True) (JS.new_Set vals) (StronglySorted_trivial _)).
    revert Hnd Hsort. generalize (JS.Array_sort JS.default_cmp (JS.new_Set vals)).
    intros l Hnd Hs. induction Hs as [|a l Hs IH Ha]; constructor.
    + apply IH. by apply NoDup_cons in Hnd as [_ ?].
    + apply NoDup_cons in Hnd as [Hnotin _].
      rewrite Forall_forall in Ha |- *. intros b Hb. destruct (Ha b Hb) as [Hle _].
      unfold JS.default_cmp in Hle. unfold String.ltb.
      destruct (a ?= b)%string eqn:E; [|done|lia].
      apply String.compare_eq_iff in E as ->. done.
Qed.


(** ** Top routes *)



Lemma tally_keys (keys : list string) : (Spec.tally keys).*1 = JS.new_Set keys.
Proof.
  unfold Spec.tally. rewrite <- list_fmap_compose.
  induction (JS.new_Set keys) as [|k ks IH]; [done|]. csimpl. by rewrite IH.
Qed.

Lemma elem_of_tally (keys : list string) (p : string * nat) :
  p ∈ Spec.tally keys ↔ p.1 ∈ keys ∧ p.2 = Spec.occurrences p.1 keys.
Proof.
  unfold Spec.tally. rewrite list_elem_of_fmap. split.
  - intros (k & -> & Hk). by rewrite elem_of_new_Set in Hk.
  - intros [Hk Hp]. exists p.1. rewrite elem_of_new_Set. split; [|done].
    destruct p; simpl in *. by subst.
Qed.







(** ** Average lead by route *)






(** [toFixed] rounds to the nearest multiple of [10^-f], the larger one
    when two are nearest: [n = nearest_scaled m (-k) f] is the integer with
    [v - 2^k / 2 < n * 2^k <= v + 2^k / 2] for [v = m * 10^f]. *)
Lemma nearest_scaled_spec (m k : positive) (f : nat) :
  let v := (Z.pos m * 10 ^ Z.of_nat f)%Z in
  let n := Z.of_N (Number.nearest_scaled m (Z.neg k) f) in
  (2 * v - 2 ^ Z.pos k < 2 * (n * 2 ^ Z.pos k) ≤ 2 * v + 2 ^ Z.pos k)%Z.
Proof.
  intros v n. unfold n, Number.nearest_scaled. fold v.
  assert (Hpow : (0 < 2 ^ Z.pos k)%Z) by (apply Z.pow_pos_nonneg; lia).
  assert (Hv : (0 < v)%Z) by (unfold v; apply Z.mul_pos_pos; [lia|apply Z.pow_pos_nonneg; lia]).
  rewrite Z.pow_add_r by lia. rewrite Z.pow_1_r.
  set (d := (2 ^ Z.pos k)%Z) in *.
  rewrite Z2N.id by (apply Z.div_pos; lia).
  pose proof (Z.mul_div_le (2 * v + d) (d * 2) ltac:(lia)).
  pose proof (Z.mul_succ_div_gt (2 * v + d) (d * 2) ltac:(lia)).
  lia.
Qed.

Lemma toFixed_nearest (neg : bool) (m k : positive) (f : nat) :
  Number.ge_1e21 m (Z.neg k) = false →
  ∃ n : N,
    Number.toFixed (S754_finite neg m (Z.neg k)) f
    = (if neg then "-" else "") +:+ Number.fixed_text n f
    ∧ (2 * (Z.pos m * 10 ^ Z.of_nat f) - 2 ^ Z.pos k
       < 2 * (Z.of_N n * 2 ^ Z.pos k)
       ≤ 2 * (Z.pos m * 10 ^ Z.of_nat f) + 2 ^ Z.pos k)%Z.
Proof.
  intros Hsmall. exists (Number.nearest_scaled m (Z.neg k) f). split.
  - unfold Number.toFixed. by rewrite Hsmall.
  - apply nearest_scaled_spec.
Qed.




(** ** Numeric coercion *)

(** C6 (amended). A purchase lead that is missing or that does not
    convert to a number counts as [0]; a purchase lead that converts to a
    number other than zero, infinite ones included, counts as that number.
    A passenger count that is missing or empty counts as [0], and one that
    converts to a number counts as that number. *)
Theorem numeric_coercion (r : Row) :
  (r !! "purchase_lead" = None → ChartPanel.lead r = Number.zero)
  ∧ (∀ s, r !! "purchase_lead" = Some s → Number.StringToNumber s = Number.NaN →
       ChartPanel.lead r = Number.zero)
  ∧ (∀ s, r !! "purchase_lead" = Some s → Number.truthy (Number.StringToNumber s) = true →
       ChartPanel.lead r = Number.StringToNumber s)
  ∧ (∀ s b, r !! "purchase_lead" = Some s → Number.StringToNumber s = S754_zero b →
       ChartPanel.lead r = Number.zero)
  ∧ (r !! "num_passengers" = None ∨ r !! "num_passengers" = Some "" →
       App.passengers r = Number.zero)
  ∧ (∀ s, r !! "num_passengers" = Some s → Number.StringToNumber s ≠ Number.NaN →
       App.passengers r = Number.StringToNumber s).
Proof.
  unfold ChartPanel.lead, App.passengers, Number.or_else, Number.ToNumber.
  split_and!.
  - by intros ->.
  - intros s -> Hs. by rewrite Hs.
  - intros s -> Hs. by rewrite Hs.
  - intros s b -> Hs. by rewrite Hs.
  - by intros [-> | ->].
  - intros s -> Hs. unfold JS.truthy_opt, JS.truthy.
    destruct (bool_decide_reflect (s = "")) as [->|_]; [|done].
    by vm_compute in Hs |- *.
Qed.

Lemma numeric_coercion_witness :
  ChartPanel.lead {[ "purchase_lead" := "n/a" ]} = Number.zero.
Proof.
  apply (proj1 (proj2 (numeric_coercion {[ "purchase_lead" := "n/a" ]})) "n/a");
    vm_compute; reflexivity.
Defined.

(** C6, as stated, fails for an infinite value: it is kept, not replaced
    by [0]. *)
Lemma infinite_lead_kept :
  let r : Row := {[ "purchase_lead" := "Infinity" ]} in
  Spec.is_finite (Number.ToNumber (r !! "purchase_lead")) = false
  ∧ ChartPanel.lead r ≠ Number.zero
  ∧ ChartPanel.avgLeadByRoute [r]
    = [ {| ChartPanel.avg_route := "Unknown"; ChartPanel.avg := S754_infinity false |} ].
Proof.
  split_and!.
  - vm_compute. reflexivity.
  - vm_compute. discriminate.
  - vm_compute. reflexivity.
Qed.

(** A passenger count that is not numeric is not replaced by [0]: the sum
    and the average become [NaN]. *)
Example passengers_not_coerced :
  App.passengers {[ "num_passengers" := "two" ]} = Number.NaN
  ∧ App.avgPassengers (App.stats [ {[ "num_passengers" := "two" ]} ]) = "NaN".
Proof. vm_compute. split; reflexivity. Qed.

(** ** The page: memoization and state *)

Lemma useMemo_coherent {D V} `{EqDecision D} (f : D → V) (cell : option (D * V)) (deps : D) :
  React.coherent f cell →
  (React.useMemo cell deps f).1 = f deps
  ∧ React.coherent f (React.useMemo cell deps f).2.
Proof.
  intros Hc. unfold React.useMemo. destruct cell as [[d v]|].
  - destruct (decide (d = deps)) as [->|Hne]; simpl.
    + split; [by apply Hc|done].
    + split; [done|]. intros d' v' [= <- <-]. done.
  - simpl. split; [done|]. intros d' v' [= <- <-]. done.
Qed.

Lemma panel_render (m : ChartPanel.Memo) (data : list Row) :
  Spec.panel_coherent m →
  (ChartPanel.render m data).1
  = {| ChartPanel.chart_byCompletion := ChartPanel.byCompletion data;
       ChartPanel.chart_byTripType := ChartPanel.byTripType data;
       ChartPanel.chart_topRoutes := ChartPanel.topRoutes data;
       ChartPanel.chart_avgLeadByRoute := ChartPanel.avgLeadByRoute data |}
  ∧ Spec.panel_coherent (ChartPanel.render m data).2.
Proof.
  intros (H1 & H2 & H3 & H4). unfold ChartPanel.render.
  destruct (useMemo_coherent _ _ data H1) as [E1 C1].
  destruct (useMemo_coherent _ _ data H2) as [E2 C2].
  destruct (useMemo_coherent _ _ data H3) as [E3 C3].
  destruct (useMemo_coherent _ _ data H4) as [E4 C4].
  destruct (React.useMemo (ChartPanel.memo_byCompletion m) _ _) as [v1 c1].
  destruct (React.useMemo (ChartPanel.memo_byTripType m) _ _) as [v2 c2].
  destruct (React.useMemo (ChartPanel.memo_topRoutes m) _ _) as [v3 c3].
  destruct (React.useMemo (ChartPanel.memo_avgLeadByRoute m) _ _) as [v4 c4].
  simpl in *. subst. split; [done|]. by split_and!.
Qed.

Lemma render_coherent (s : App.State) :
  Spec.state_coherent s →
  (App.render s).1
  = Spec.pipeline (App.data s) (App.selectedRoute s) (App.selectedTripType s)
  ∧ Spec.state_coherent (App.render s).2
  ∧ App.data (App.render s).2 = App.data s
  ∧ App.selectedRoute (App.render s).2 = App.selectedRoute s
  ∧ App.selectedTripType (App.render s).2 = App.selectedTripType s.
Proof.
  intros (H1 & H2 & H3 & H4 & P1 & P2 & P3 & P4). unfold App.render.
  destruct (useMemo_coherent _ _ (App.data s) H1) as [E1 C1].
  destruct (useMemo_coherent _ _ (App.data s) H2) as [E2 C2].
  destruct (useMemo_coherent _ _
    (App.data s, App.selectedRoute s, App.selectedTripType s) H3) as [E3 C3].
  destruct (React.useMemo (App.memo_routes s) _ _) as [rs c1].
  destruct (React.useMemo (App.memo_tripTypes s) _ _) as [ts c2].
  destruct (React.useMemo (App.memo_filteredData s) _ _) as [fd c3].
  simpl in E1, E2, E3, C1, C2, C3. subst rs ts fd.
  set (fd := App.filteredData (App.data s) (App.selectedRoute s) (App.selectedTripType s)).
  destruct (useMemo_coherent _ _ fd H4) as [E4 C4].
  destruct (React.useMemo (App.memo_stats s) _ _) as [st c4].
  destruct (panel_render _ fd P1) as [F1 Q1].
  destruct (panel_render _ fd P2) as [F2 Q2].
  destruct (panel_render _ fd P3) as [F3 Q3].
  destruct (panel_render _ fd P4) as [F4 Q4].
  destruct (ChartPanel.render (App.panel_bar s) fd) as [bar p1].
  destruct (ChartPanel.render (App.panel_pie s) fd) as [pie p2].
  destruct (ChartPanel.render (App.panel_horizontalBar s) fd) as [hbar p3].
  destruct (ChartPanel.render (App.panel_area s) fd) as [area p4].
  simpl in *. subst. by split_and!.
Qed.

Lemma update_coherent (s : App.State) (ev : App.Event) :
  Spec.state_coherent s → Spec.state_coherent (App.update s ev).
Proof. by destruct ev. Qed.

Lemma run_snoc (evs : list App.Event) (ev : App.Event) :
  App.run (evs ++ [ev]) = App.step (App.run evs) ev.
Proof. unfold App.run. by rewrite foldl_snoc. Qed.

Lemma mount_coherent : Spec.state_coherent App.mount.
Proof. repeat split; intros ? ? [=]. Qed.

(** Whatever happened before, the memo cells hold values of the functions
    they memoize. *)
Lemma run_coherent (evs : list App.Event) : Spec.state_coherent (App.run evs).
Proof.
  induction evs as [|ev evs IH] using rev_ind.
  - apply render_coherent, mount_coherent.
  - rewrite run_snoc. by apply render_coherent, update_coherent.
Qed.

(** The page shows the pipeline applied to the current store and
    selection. *)
Lemma view_run (evs : list App.Event) :
  App.view (App.run evs)
  = Spec.pipeline (App.data (App.run evs)) (App.selectedRoute (App.run evs))
      (App.selectedTripType (App.run evs)).
Proof. apply render_coherent, run_coherent. Qed.

Lemma run_select (evs : list App.Event) (rows : list Row) (r t : string) :
  let s := App.run (evs ++ [App.setData rows; App.setSelectedRoute r;
                            App.setSelectedTripType t]) in
  App.data s = rows ∧ App.selectedRoute s = r ∧ App.selectedTripType s = t.
Proof.
  assert (Hstep : ∀ s ev, Spec.state_coherent s →
    App.data (App.step s ev) = App.data (App.update s ev)
    ∧ App.selectedRoute (App.step s ev) = App.selectedRoute (App.update s ev)
    ∧ App.selectedTripType (App.step s ev) = App.selectedTripType (App.update s ev)).
  { intros s ev Hs. unfold App.step.
    by destruct (render_coherent _ (update_coherent s ev Hs)) as (_ & _ & ? & ? & ?). }
  replace (evs ++ [App.setData rows; App.setSelectedRoute r; App.setSelectedTripType t])%list
    with (((evs ++ [App.setData rows]) ++ [App.setSelectedRoute r])
            ++ [App.setSelectedTripType t])%list by by rewrite <- !app_assoc.
  simpl. rewrite !run_snoc.
  pose proof (run_coherent evs) as H0.
  pose proof (Hstep _ (App.setData rows) H0) as (D1 & R1 & T1).
  assert (H1 : Spec.state_coherent (App.step (App.run evs) (App.setData rows))).
  { rewrite <- run_snoc. apply run_coherent. }
  pose proof (Hstep _ (App.setSelectedRoute r) H1) as (D2 & R2 & T2).
  assert (H2 : Spec.state_coherent
    (App.step (App.step (App.run evs) (App.setData rows)) (App.setSelectedRoute r))).
  { rewrite <- !run_snoc. apply run_coherent. }
  pose proof (Hstep _ (App.setSelectedTripType t) H2) as (D3 & R3 & T3).
  simpl in *. split_and!; congruence.
Qed.

(** C9. The filtered sequence and the four projections shown by the page
    depend only on the record store and the selection: after any two
    histories of state changes that end with loading the same store and
    making the same selection, the page shows the same filtered sequence,
    statistics and four projections, namely those of the pipeline applied
    to that store and selection; filtering the filtered sequence again
    with the same selection changes nothing. *)
Theorem pipeline_pure (evs1 evs2 : list App.Event) (rows : list Row) (r t : string) :
  let select := [App.setData rows; App.setSelectedRoute r; App.setSelectedTripType t] in
  App.view (App.run (evs1 ++ select)) = App.view (App.run (evs2 ++ select))
  ∧ App.view (App.run (evs1 ++ select)) = Spec.pipeline rows r t
  ∧ App.filteredData (App.filteredData rows r t) r t = App.filteredData rows r t.
Proof.
  intros select.
  assert (Hview : ∀ evs, App.view (App.run (evs ++ select)) = Spec.pipeline rows r t).
  { intros evs. rewrite view_run. unfold select.
    destruct (run_select evs rows r t) as (Hd & Hr & Ht). cbv zeta in Hd, Hr, Ht.
    by rewrite Hd, Hr, Ht. }
  split_and!.
  - by rewrite !Hview.
  - apply Hview.
  - clear. unfold App.filteredData. induction rows as [|row rows IH]; [done|].
    cbn [List.filter]. destruct (App.keep r t row) eqn:E; [|done].
    cbn [List.filter]. by rewrite E, IH.
Qed.

(** ** More on the filter and the facets *)

Lemma filteredData_filter (data : list Row) (r t : string) :
  App.filteredData data r t = filter (Spec.passes r t) data.
Proof. apply filter_keep_passes. Qed.

(** X1. Filtering by route and then by trip type is filtering by both at
    once, in either order. *)
Theorem filteredData_compose (data : list Row) (r t : string) :
  App.filteredData (App.filteredData data r "") "" t = App.filteredData data r t
  ∧ App.filteredData (App.filteredData data "" t) r "" = App.filteredData data r t.
Proof.
  rewrite !filteredData_filter, !list_filter_filter.
  split; apply list_filter_iff; intros row; unfold Spec.passes; tauto.
Qed.

Lemma elem_of_facet (field : string) (data : list Row) (s : string) :
  s ∈ App.facet field data ↔ s ≠ "" ∧ ∃ r : Row, r ∈ data ∧ r !! field = Some s.
Proof. apply facet_spec. Qed.

(** X2. The facets of a filtered sequence are facets of the store; with a
    route selected the only route left is the selected one, and likewise
    for the trip type. *)
Theorem facets_of_filtered (data : list Row) (r t s : string) :
  (s ∈ App.routes (App.filteredData data r t) → s ∈ App.routes data ∧ (r ≠ "" → s = r))
  ∧ (s ∈ App.tripTypes (App.filteredData data r t) →
       s ∈ App.tripTypes data ∧ (t ≠ "" → s = t)).
Proof.
  unfold App.routes, App.tripTypes. rewrite !elem_of_facet, filteredData_filter.
  split; intros (Hs & row & [Hpass Hrow]%list_elem_of_filter & Hfield).
  - split; [eauto|]. intros Hr. destruct Hpass as [[?|Hroute] _]; congruence.
  - split; [eauto|]. intros Ht. destruct Hpass as [_ [?|Htrip]]; congruence.
Qed.

(** ** The [Filters] component *)

Lemma facet_no_empty (field : string) (data : list Row) : "" ∉ App.facet field data.
Proof. rewrite elem_of_facet. by intros [? _]. Qed.

Lemma options_keys (f : string → Filters.Choice) (first : Filters.Choice) (l : list string) :
  (∀ x, Filters.value (f x) = x) → Filters.value first = "" →
  NoDup l → "" ∉ l → NoDup (Filters.value <$> (first :: (f <$> l))).
Proof.
  intros Hf Hfirst Hnd Hempty. csimpl. rewrite Hfirst, <- list_fmap_compose.
  rewrite (list_fmap_ext (Filters.value ∘ f) id l) by (intros; apply Hf).
  rewrite list_fmap_id.
  by constructor.
Qed.

(** X3. The options of the two selects have pairwise distinct values: the
    value [""] belongs to the first option ("All Routes", "All Types")
    only, and the other options are the facets, each once, a route under
    its display name. *)
Theorem filter_options_distinct (data : list Row) :
  NoDup (Filters.value <$> Filters.route_options (App.routes data))
  ∧ NoDup (Filters.value <$> Filters.trip_options (App.tripTypes data))
  ∧ (∀ choice, choice ∈ Filters.route_options (App.routes data) →
       (Filters.value choice = "" ∧ Filters.text choice = "All Routes")
       ∨ (Filters.value choice ∈ App.routes data
          ∧ Filters.text choice = RouteMapping.getRouteName (Filters.value choice)))
  ∧ (∀ choice, choice ∈ Filters.trip_options (App.tripTypes data) →
       (Filters.value choice = "" ∧ Filters.text choice = "All Types")
       ∨ (Filters.value choice ∈ App.tripTypes data
          ∧ Filters.text choice = Filters.value choice)).
Proof.
  split_and!.
  - apply options_keys; [done|done|apply facet_spec|apply facet_no_empty].
  - apply options_keys; [done|done|apply facet_spec|apply facet_no_empty].
  - intros choice [->|(s & -> & Hs)%list_elem_of_fmap]%elem_of_cons; [by left|by right].
  - intros choice [->|(s & -> & Hs)%list_elem_of_fmap]%elem_of_cons; [by left|by right].
Qed.

(** X4. Choosing any option of the route select, with no trip type
    selected, never empties a non-empty store: "All Routes" shows the
    whole store and a route shows the records of that route, of which
    there is at least one.  The same holds for the trip-type select. *)
Theorem filter_option_nonempty (data : list Row) (choice : Filters.Choice) :
  data ≠ [] →
  (choice ∈ Filters.route_options (App.routes data) →
     App.filteredData data (Filters.value choice) "" ≠ []
     ∧ (Filters.value choice = "" → App.filteredData data (Filters.value choice) "" = data)
     ∧ (Filters.value choice ≠ "" →
          Forall (λ row : Row, row !! "route" = Some (Filters.value choice))
                 (App.filteredData data (Filters.value choice) "")))
  ∧ (choice ∈ Filters.trip_options (App.tripTypes data) →
       App.filteredData data "" (Filters.value choice) ≠ []
       ∧ (Filters.value choice = "" → App.filteredData data "" (Filters.value choice) = data)
       ∧ (Filters.value choice ≠ "" →
            Forall (λ row : Row, row !! "trip_type" = Some (Filters.value choice))
                   (App.filteredData data "" (Filters.value choice)))).
Proof.
  intros Hdata.
  assert (Hall : App.filteredData data "" "" = data).
  { rewrite filteredData_filter. induction data as [|row l IH]; [done|].
    rewrite filter_cons_True by (split; by left).
    f_equal. destruct l; [done|]. by apply IH. }
  split; intros [->|(s & -> & Hs)%list_elem_of_fmap]%elem_of_cons; simpl.
  - by rewrite Hall.
  - unfold App.routes in Hs. apply elem_of_facet in Hs as (Hne & row & Hrow & Hfield).
    rewrite filteredData_filter. split_and!; [|done|].
    + intros Hnil. eapply (filter_nil_not_elem_of _ _ row); [exact Hnil| |done].
      split; [by right|by left].
    + intros _. apply Forall_forall. intros x [[[?|?] _] _]%list_elem_of_filter; done.
  - by rewrite Hall.
  - unfold App.tripTypes in Hs. apply elem_of_facet in Hs as (Hne & row & Hrow & Hfield).
    rewrite filteredData_filter. split_and!; [|done|].
    + intros Hnil. eapply (filter_nil_not_elem_of _ _ row); [exact Hnil| |done].
      split; [by left|by right].
    + intros _. apply Forall_forall. intros x [[_ [?|?]] _]%list_elem_of_filter; done.
Qed.

Lemma filter_option_nonempty_witness :
  App.filteredData Spec.three_records "SYDBKK" "" ≠ [].
Proof.
  assert (Hdata : Spec.three_records ≠ []) by discriminate.
  apply (proj1 (filter_option_nonempty Spec.three_records
                  {| Filters.value := "SYDBKK"; Filters.text := "Sydney → Bangkok" |} Hdata)).
  apply (bool_decide_unpack _). vm_compute. exact I.
Defined.

(** ** Route names and codes *)


(** X5. No display name is empty or is itself a route code: the display
    name of a code is empty only for the empty code, and resolving a
    display name again changes nothing. *)
Theorem getRouteName_stable (code : string) :
  RouteMapping.getRouteName (RouteMapping.getRouteName code) = RouteMapping.getRouteName code
  ∧ (RouteMapping.getRouteName code = "" ↔ code = "").
Proof.
  destruct (RouteMapping.ROUTE_NAMES !! code) as [name|] eqn:Hcode.
  - rewrite (getRouteName_mapped _ _ Hcode).
    assert (Hall : map_Forall (λ _ v, RouteMapping.ROUTE_NAMES !! v = None ∧ v ≠ "")
                              RouteMapping.ROUTE_NAMES).
    { apply (bool_decide_unpack _). vm_compute. exact I. }
    destruct (Hall _ _ Hcode) as [Hname Hne].
    split; [by apply getRouteName_unmapped|]. split; [done|].
    intros ->. by vm_compute in Hcode.
  - by rewrite !(getRouteName_unmapped _ Hcode).
Qed.


(** ** Pie colours *)

(** X7. Every slice of the trip-type pie gets a colour of the palette,
    however many trip types there are; the colours repeat with period
    eight. *)
Theorem pie_cells_coloured (byTripType : list ChartPanel.NameValue) (index : nat) :
  length (Pie.cells byTripType) = length byTripType
  ∧ Forall (λ c, ∃ colour, c = Some colour ∧ colour ∈ Pie.COLORS) (Pie.cells byTripType)
  ∧ Pie.fill (index + 8) = Pie.fill index.
Proof.
  assert (Hfill : ∀ i, ∃ colour, Pie.fill i = Some colour ∧ colour ∈ Pie.COLORS).
  { intros i. unfold Pie.fill.
    destruct (lookup_lt_is_Some_2 Pie.COLORS (i mod length Pie.COLORS)) as [colour Hc].
    - apply Nat.mod_upper_bound. discriminate.
    - exists colour. split; [done|]. by eapply list_elem_of_lookup_2. }
  split_and!.
  - apply length_imap.
  - apply Forall_forall. intros c (i & Hi)%list_elem_of_lookup_1.
    unfold Pie.cells in Hi. rewrite list_lookup_imap in Hi.
    destruct (byTripType !! i); simplify_eq/=. apply Hfill.
  - unfold Pie.fill. f_equal. change (length Pie.COLORS) with 8.
    replace (index + 8) with (index + 1 * 8) by lia. by rewrite Nat.Div0.mod_add.
Qed.

(** ** The statistics *)






(** X9. [uniqueRoutes] counts a missing route and an empty route as routes
    of their own: it is the number of selectable routes, plus one when
    some record has no route, plus one when some record has the empty
    route. *)
Theorem uniqueRoutes_count (fd : list Row) :
  let vals := (λ r : Row, r !! "route") <$> fd in
  App.uniqueRoutes (App.stats fd)
  = length (App.routes fd)
    + (if decide (None ∈ vals) then 1 else 0)
    + (if decide (Some "" ∈ vals) then 1 else 0).
Proof.
  intros vals.
  change (App.uniqueRoutes (App.stats fd)) with (length (JS.new_Set vals)).
  set (missing := if decide (None ∈ vals) then [None] else @nil (option string)).
  set (empty := if decide (Some "" ∈ vals) then [Some ""] else @nil (option string)).
  assert (Hroutes : ∀ s, s ∈ App.routes fd ↔ s ≠ "" ∧ Some s ∈ vals).
  { intros s. unfold App.routes. rewrite elem_of_facet. unfold vals.
    rewrite list_elem_of_fmap. split.
    - intros (? & r & ? & ?). split; [done|]. by exists r.
    - intros (? & r & ? & ?). split; [done|]. by exists r. }
  assert (Hperm : JS.new_Set vals ≡ₚ ((Some <$> App.routes fd) ++ missing ++ empty)%list).
  { apply NoDup_Permutation.
    - apply NoDup_new_Set.
    - apply NoDup_app. split_and!.
      + apply NoDup_fmap_2; [apply _|]. apply facet_spec.
      + intros x (s & -> & Hs)%list_elem_of_fmap. apply Hroutes in Hs as [Hne _].
        unfold missing, empty. rewrite elem_of_app.
        destruct (decide (None ∈ vals)), (decide (Some "" ∈ vals));
          rewrite ?elem_of_nil, ?list_elem_of_singleton; intros [?|?]; by simplify_eq.
      + unfold missing, empty.
        destruct (decide (None ∈ vals)), (decide (Some "" ∈ vals)); simpl;
          repeat constructor; rewrite ?elem_of_nil, ?list_elem_of_singleton; by intros ?.
    - intros x. rewrite elem_of_new_Set, !elem_of_app, list_elem_of_fmap.
      unfold missing, empty. split.
      + intros Hx. destruct x as [s|].
        * destruct (decide (s = "")) as [->|Hne].
          -- right. right. rewrite decide_True by done. by left.
          -- left. exists s. split; [done|]. by apply Hroutes.
        * right. left. rewrite decide_True by done. by left.
      + intros [(s & -> & Hs)|[Hx|Hx]].
        * by apply Hroutes in Hs as [_ ?].
        * destruct (decide (None ∈ vals)); [|by apply elem_of_nil in Hx].
          by apply list_elem_of_singleton in Hx as ->.
        * destruct (decide (Some "" ∈ vals)); [|by apply elem_of_nil in Hx].
          by apply list_elem_of_singleton in Hx as ->. }
  rewrite Hperm, !length_app, length_fmap. unfold missing, empty.
  destruct (decide (None ∈ vals)), (decide (Some "" ∈ vals)); simpl; lia.
Qed.

Lemma add_NaN_l (x : Number.number) : Number.add Number.NaN x = Number.NaN.
Proof. by destruct x. Qed.

Lemma add_NaN_r (x : Number.number) : Number.add x Number.NaN = Number.NaN.
Proof. by destruct x as [| | |]. Qed.

Lemma foldl_add_NaN (l : list Row) :
  foldl (λ sum r, Number.add sum (App.passengers r)) Number.NaN l = Number.NaN.
Proof. induction l as [|r l IH]; [done|]. cbn [foldl]. by rewrite add_NaN_l. Qed.

(** X10. One passenger count that is not empty and does not convert to a
    number spoils the average: [avgPassengers] is then the text ["NaN"],
    whatever the other records hold. *)
Theorem avgPassengers_NaN (fd : list Row) (row : Row) (s : string) :
  row ∈ fd → row !! "num_passengers" = Some s → s ≠ "" →
  Number.StringToNumber s = Number.NaN →
  App.avgPassengers (App.stats fd) = "NaN".
Proof.
  intros Hrow Hs Hne Hnan.
  assert (Hp : App.passengers row = Number.NaN).
  { unfold App.passengers, JS.truthy_opt, JS.truthy. rewrite Hs.
    rewrite bool_decide_eq_false_2 by done. simpl. exact Hnan. }
  apply list_elem_of_split in Hrow as (l1 & l2 & ->).
  unfold App.stats. cbn [App.avgPassengers].
  rewrite length_app. simpl length.
  replace (0 <? length l1 + S (length l2))%nat with true
    by (symmetry; apply Nat.ltb_lt; lia).
  rewrite foldl_app. cbn [foldl]. rewrite Hp, add_NaN_r, foldl_add_NaN.
  reflexivity.
Qed.

Lemma avgPassengers_NaN_witness :
  App.avgPassengers
    (App.stats [ {[ "num_passengers" := "2" ]}; {[ "num_passengers" := "two" ]} ]) = "NaN".
Proof.
  apply (avgPassengers_NaN _ {[ "num_passengers" := "two" ]} "two").
  - apply (bool_decide_unpack _). vm_compute. exact I.
  - vm_compute. reflexivity.
  - discriminate.
  - vm_compute. reflexivity.
Defined.

(** ** The trip-type pie *)







(** ** Sizes and totals of the route charts *)






(** ** Charts of a selection *)





Lemma filter_all {A} (P : A → Prop) `{∀ x, Decision (P x)} (l : list A) :
  Forall P l → filter P l = l.
Proof. induction 1 as [|x l Hx Hl IH]; [done|]. by rewrite filter_cons_True, IH. Qed.





(** ** The route map *)

Lemma routeCounts_entries (data : list Row) :
  RouteMap.routeCounts data
  = omap RouteMap.line (JS.Object_entries (Spec.tally (ChartPanel.route_key <$> data))).
Proof.
  unfold RouteMap.routeCounts. rewrite counts_foldl.
  destruct data; [reflexivity|]. by rewrite bool_decide_eq_false_2.
Qed.

Lemma line_Some (p : string * nat) (l : RouteMap.RouteLine) :
  RouteMap.line p = Some l →
  RouteMap.known p.1 = true
  ∧ RouteMap.route l = p.1 ∧ RouteMap.count l = p.2
  ∧ RouteMap.origin l = Text.substring p.1 0 3
  ∧ RouteMap.dest l = Text.substring p.1 3 6
  ∧ RouteMap.airportCoordinates !! RouteMap.origin l = Some (RouteMap.originCoords l)
  ∧ RouteMap.airportCoordinates !! RouteMap.dest l = Some (RouteMap.destCoords l).
Proof.
  unfold RouteMap.line, RouteMap.known.
  destruct (RouteMap.airportCoordinates !! Text.substring p.1 0 3) as [o|] eqn:Ho; [|done].
  destruct (RouteMap.airportCoordinates !! Text.substring p.1 3 6) as [d|] eqn:Hd; [|done].
  intros [= <-]. simpl. by split_and!.
Qed.

Lemma line_known (p : string * nat) :
  RouteMap.known p.1 = true → is_Some (RouteMap.line p).
Proof.
  unfold RouteMap.line, RouteMap.known.
  intros [[o Ho]%bool_decide_eq_true [d Hd]%bool_decide_eq_true]%andb_prop.
  rewrite Ho, Hd. eauto.
Qed.

Lemma routes_of_lines (entries : list (string * nat)) :
  RouteMap.route <$> omap RouteMap.line entries
  = filter (λ k, RouteMap.known k = true) entries.*1.
Proof.
  induction entries as [|p entries IH]; [done|]. csimpl. rewrite filter_cons.
  destruct (RouteMap.line p) as [l|] eqn:Hl.
  - apply line_Some in Hl as (Hk & Hr & _). rewrite decide_True by done.
    csimpl. by rewrite IH, Hr.
  - rewrite decide_False; [done|]. intros [l Hk]%line_known. congruence.
Qed.

(** X17. The flat map draws one line per distinct route of the sequence
    whose first three and next three characters are both airports of
    the table, and no other; in particular the records without route,
    counted under ["Unknown"], are never drawn.  A line carries the two
    airport codes cut from the route, their coordinates from the table,
    and the number of records of the route. *)
Theorem routeCounts_lines (data : list Row) :
  let keys := ChartPanel.route_key <$> data in
  NoDup (RouteMap.route <$> RouteMap.routeCounts data)
  ∧ (∀ k, k ∈ (RouteMap.route <$> RouteMap.routeCounts data)
          ↔ k ∈ keys ∧ RouteMap.known k = true)
  ∧ ¬ ("Unknown" ∈ (RouteMap.route <$> RouteMap.routeCounts data))
  ∧ (∀ l, l ∈ RouteMap.routeCounts data →
       RouteMap.origin l = Text.substring (RouteMap.route l) 0 3
       ∧ RouteMap.dest l = Text.substring (RouteMap.route l) 3 6
       ∧ RouteMap.airportCoordinates !! RouteMap.origin l = Some (RouteMap.originCoords l)
       ∧ RouteMap.airportCoordinates !! RouteMap.dest l = Some (RouteMap.destCoords l)
       ∧ RouteMap.count l = Spec.occurrences (RouteMap.route l) keys).
Proof.
  intros keys.
  assert (Hroutes : RouteMap.route <$> RouteMap.routeCounts data
    ≡ₚ filter (λ k, RouteMap.known k = true) (JS.new_Set keys)).
  { rewrite routeCounts_entries, routes_of_lines. fold keys.
    by rewrite Object_entries_perm, tally_keys. }
  assert (Hin : ∀ k, k ∈ (RouteMap.route <$> RouteMap.routeCounts data)
                     ↔ k ∈ keys ∧ RouteMap.known k = true).
  { intros k. rewrite Hroutes, list_elem_of_filter, elem_of_new_Set. tauto. }
  split_and!; [|done| |].
  - rewrite Hroutes. apply NoDup_filter, NoDup_new_Set.
  - rewrite Hin. intros [_ Hk]. vm_compute in Hk. discriminate Hk.
  - intros l. rewrite routeCounts_entries. fold keys.
    intros (p & Hp & Hl)%list_elem_of_omap.
    rewrite Object_entries_perm in Hp. apply elem_of_tally in Hp as [_ Hp].
    apply line_Some in Hl as (_ & -> & -> & ? & ? & ? & ?). done.
Qed.

Lemma sum_counts_of_lines (entries : list (string * nat)) :
  sum_list_with RouteMap.count (omap RouteMap.line entries)
  = sum_list_with (λ p, if RouteMap.known p.1 then p.2 else 0) entries.
Proof.
  induction entries as [|p entries IH]; [done|]. csimpl.
  destruct (RouteMap.line p) as [l|] eqn:Hl.
  - apply line_Some in Hl as (Hk & _ & Hc & _). csimpl. by rewrite Hk, Hc, IH.
  - destruct (RouteMap.known p.1) eqn:Hk; [|done].
    apply line_known in Hk as [l Hk]. congruence.
Qed.

Lemma sum_occurrences_of (P : string → bool) (keys ks : list string) :
  NoDup ks → (∀ x, x ∈ keys → x ∈ ks) →
  sum_list_with (λ k, if P k then Spec.occurrences k keys else 0) ks
  = length (filter (λ k, P k = true) keys).
Proof.
  intros Hnd Hin.
  rewrite <- (sum_occurrences (filter (λ k, P k = true) keys)
                              (filter (λ k, P k = true) ks)).
  - clear. induction ks as [|k ks IH]; [done|]. csimpl. rewrite filter_cons.
    destruct (P k) eqn:Hk.
    + rewrite decide_True by done. csimpl. rewrite IH. f_equal.
      unfold Spec.occurrences. f_equal. rewrite list_filter_filter.
      apply list_filter_iff. intros x. split; [by intros ->|tauto].
    + rewrite decide_False by congruence. by rewrite IH.
  - by apply NoDup_filter.
  - intros x [Hx Hk]%list_elem_of_filter. apply list_elem_of_filter. auto.
Qed.

Lemma maxCount_bounds (counts : list nat) :
  (1 ≤ max_list (counts ++ [1]))%nat
  ∧ Forall (λ n, (n ≤ max_list (counts ++ [1]))%nat) counts.
Proof.
  split.
  - apply max_list_elem_of_le, elem_of_app. right. by left.
  - apply Forall_forall. intros n Hn. apply max_list_elem_of_le, elem_of_app. by left.
Qed.

(** X18. The counts of the lines sum to the number of records whose route
    can be drawn.  [maxCount] is at least 1 and at least the count of
    every line, so each line's share [count / maxCount] has a divisor
    that is not zero and a dividend that does not exceed it. *)
Theorem routeCounts_total (data : list Row) :
  sum_list_with RouteMap.count (RouteMap.routeCounts data)
  = length (filter (λ row, RouteMap.known (ChartPanel.route_key row) = true) data)
  ∧ (1 ≤ RouteMap.maxCount (RouteMap.routeCounts data))%nat
  ∧ Forall (λ l, (RouteMap.count l ≤ RouteMap.maxCount (RouteMap.routeCounts data))%nat)
           (RouteMap.routeCounts data).
Proof.
  split_and!.
  - rewrite routeCounts_entries, sum_counts_of_lines, Object_entries_perm.
    set (keys := ChartPanel.route_key <$> data).
    transitivity (sum_list_with
      (λ k, if RouteMap.known k then Spec.occurrences k keys else 0) (JS.new_Set keys)).
    { unfold Spec.tally. induction (JS.new_Set keys) as [|k ks IH]; [done|].
      csimpl. by rewrite IH. }
    rewrite sum_occurrences_of.
    + unfold keys. clear. induction data as [|row data IH]; [done|].
      csimpl. rewrite !filter_cons.
      destruct (decide (RouteMap.known (ChartPanel.route_key row) = true)); simpl;
        by rewrite IH.
    + apply NoDup_new_Set.
    + intros x. by rewrite elem_of_new_Set.
  - apply maxCount_bounds.
  - unfold RouteMap.maxCount.
    pose proof (proj2 (maxCount_bounds (RouteMap.count <$> RouteMap.routeCounts data))) as H.
    by apply Forall_fmap in H.
Qed.

(** ** Airports of the map and of the globe *)

Section keyed.
Context {V : Type} (f : string → V).

Lemma set_fold_keyed (kvs : list (string * V)) :
  Forall (λ p, p.2 = f p.1) kvs →
  foldl (λ m p, JSMap.set m p.1 p.2) [] kvs = (λ k, (k, f k)) <$> JS.new_Set kvs.*1.
Proof.
  induction kvs as [|[k v] kvs IH] using rev_ind; intros Hall; [done|].
  apply Forall_app in Hall as [Hall Hk]. rewrite Forall_singleton in Hk. simpl in Hk.
  rewrite foldl_snoc, IH, fmap_app by done. csimpl. rewrite new_Set_snoc.
  unfold JSMap.set, JS.Set_add.
  destruct (decide (k ∈ JS.new_Set kvs.*1)) as [Hin|Hin].
  - rewrite set_fmap_present by (done || apply NoDup_new_Set).
    apply list_fmap_ext. intros i x _. f_equal.
    by destruct (decide (x = k)) as [->|].
  - rewrite set_fmap_fresh by done. rewrite fmap_app. csimpl. by rewrite Hk.
Qed.

Lemma has_fold_keyed (ks : list string) :
  foldl (λ m k, if JSMap.has m k then m else JSMap.set m k (f k)) [] ks
  = (λ k, (k, f k)) <$> JS.new_Set ks.
Proof.
  induction ks as [|k ks IH] using rev_ind; [done|].
  rewrite foldl_snoc, IH, new_Set_snoc. unfold JSMap.has, JSMap.set, JS.Set_add.
  rewrite get_fmap.
  destruct (decide (k ∈ JS.new_Set ks)) as [Hin|Hin].
  - by rewrite bool_decide_eq_true_2 by eauto.
  - rewrite bool_decide_eq_false_2 by (by intros [? ?]).
    rewrite set_fmap_fresh by done. by rewrite fmap_app.
Qed.
End keyed.

Lemma airport_tables_agree : Globe3D.airportCoordinates = RouteMap.airportCoordinates.
Proof. vm_compute. reflexivity. Qed.

Lemma routeCounts_consistent (data : list Row) :
  Forall (λ l, RouteMap.origin l = Text.substring (RouteMap.route l) 0 3
               ∧ RouteMap.dest l = Text.substring (RouteMap.route l) 3 6
               ∧ RouteMap.airportCoordinates !! RouteMap.origin l
                 = Some (RouteMap.originCoords l)
               ∧ RouteMap.airportCoordinates !! RouteMap.dest l
                 = Some (RouteMap.destCoords l))
         (RouteMap.routeCounts data).
Proof.
  apply Forall_forall. intros l. rewrite routeCounts_entries.
  intros (p & _ & Hl)%list_elem_of_omap.
  apply line_Some in Hl as (_ & -> & _ & ? & ? & ? & ?). done.
Qed.

Lemma uniqueAirports_keyed (lines : list RouteMap.RouteLine) (dummy : Airport.Coords) :
  Forall (λ l, RouteMap.airportCoordinates !! RouteMap.origin l
               = Some (RouteMap.originCoords l)
               ∧ RouteMap.airportCoordinates !! RouteMap.dest l
                 = Some (RouteMap.destCoords l)) lines →
  RouteMap.uniqueAirports lines
  = (λ k, (k, default dummy (RouteMap.airportCoordinates !! k)))
      <$> JS.new_Set (RouteMap.endpoints lines).
Proof.
  intros Hall. unfold RouteMap.uniqueAirports, RouteMap.endpoints.
  set (pairs := λ r, [(RouteMap.origin r, RouteMap.originCoords r);
                      (RouteMap.dest r, RouteMap.destCoords r)]).
  assert (Hflat : ∀ m,
    foldl (λ airports r,
             JSMap.set (JSMap.set airports (RouteMap.origin r) (RouteMap.originCoords r))
                       (RouteMap.dest r) (RouteMap.destCoords r)) m lines
    = foldl (λ m p, JSMap.set m p.1 p.2) m (lines ≫= pairs)).
  { clear. induction lines as [|r lines IH]; intros m; [done|]. csimpl. by rewrite IH. }
  assert (Hkeys : (lines ≫= pairs).*1 = lines ≫= λ r, [RouteMap.origin r; RouteMap.dest r]).
  { clear. induction lines as [|r lines IH]; [done|]. csimpl. by rewrite IH. }
  rewrite Hflat, <- Hkeys. apply set_fold_keyed.
  apply Forall_forall. intros p (r & Hp & Hr)%list_elem_of_bind.
  rewrite Forall_forall in Hall. destruct (Hall r Hr) as [Ho Hd].
  unfold pairs in Hp. rewrite !elem_of_cons in Hp.
  destruct Hp as [->|[->|[]%elem_of_nil]]; simpl; [by rewrite Ho|by rewrite Hd].
Qed.

Lemma endpoints_known (data : list Row) (code : string) :
  code ∈ RouteMap.endpoints (RouteMap.routeCounts data) →
  is_Some (RouteMap.airportCoordinates !! code).
Proof.
  unfold RouteMap.endpoints. intros (r & Hcode & Hr)%list_elem_of_bind.
  pose proof (routeCounts_consistent data) as Hall. rewrite Forall_forall in Hall.
  destruct (Hall r Hr) as (_ & _ & Ho & Hd).
  rewrite !elem_of_cons in Hcode.
  destruct Hcode as [->|[->|[]%elem_of_nil]]; eauto.
Qed.

(** X19. The airport markers of the flat map are the airports at either
    end of a drawn line, each once, in the order in which the lines meet
    them, with the coordinates of the table; there are at most sixteen. *)
Theorem uniqueAirports_markers (data : list Row) :
  let lines := RouteMap.routeCounts data in
  (RouteMap.uniqueAirports lines).*1 = JS.new_Set (RouteMap.endpoints lines)
  ∧ NoDup (RouteMap.uniqueAirports lines).*1
  ∧ (∀ code coords,
       (code, coords) ∈ RouteMap.uniqueAirports lines
       ↔ code ∈ RouteMap.endpoints lines
         ∧ RouteMap.airportCoordinates !! code = Some coords)
  ∧ (length (RouteMap.uniqueAirports lines) ≤ 16)%nat.
Proof.
  intros lines.
  pose proof (uniqueAirports_keyed lines (Airport.coords "" "" "")) as Hkeyed.
  rewrite Hkeyed.
  2:{ eapply Forall_impl; [apply routeCounts_consistent|]. by intros l (_ & _ & ? & ?). }
  assert (Hcodes : ((λ k, (k, default (Airport.coords "" "" "")
                                (RouteMap.airportCoordinates !! k)))
                      <$> JS.new_Set (RouteMap.endpoints lines)).*1
                   = JS.new_Set (RouteMap.endpoints lines)).
  { rewrite <- list_fmap_compose. rewrite <- (list_fmap_id (JS.new_Set _)) at 2.
    by apply list_fmap_ext. }
  split_and!.
  - done.
  - rewrite Hcodes. apply NoDup_new_Set.
  - intros code coords. rewrite list_elem_of_fmap. split.
    + intros (k & [= -> ->] & Hk). rewrite elem_of_new_Set in Hk. split; [done|].
      by destruct (endpoints_known data k Hk) as [c ->].
    + intros [Hcode Hc]. exists code. rewrite elem_of_new_Set. split; [|done].
      by rewrite Hc.
  - rewrite <- (length_fmap fst), Hcodes.
    transitivity (length (map_to_list RouteMap.airportCoordinates).*1).
    + apply submseteq_length, NoDup_submseteq; [apply NoDup_new_Set|].
      intros code Hcode. rewrite elem_of_new_Set in Hcode.
      destruct (endpoints_known data code Hcode) as [c Hc].
      apply list_elem_of_fmap. exists (code, c). split; [done|].
      by apply elem_of_map_to_list.
    + vm_compute. lia.
Qed.

(** ** The globe *)

Lemma arc_of_line (p : string * nat) : Globe3D.arc p = Globe3D.of_line <$> RouteMap.line p.
Proof.
  unfold Globe3D.arc, RouteMap.line. rewrite airport_tables_agree.
  destruct (RouteMap.airportCoordinates !! Text.substring p.1 0 3); [|done].
  by destruct (RouteMap.airportCoordinates !! Text.substring p.1 3 6).
Qed.

Lemma arcs_of_lines (data : list Row) :
  Globe3D.arcsData data = Globe3D.of_line <$> RouteMap.routeCounts data.
Proof.
  unfold Globe3D.arcsData, RouteMap.routeCounts.
  destruct (bool_decide (length data = 0)); [done|].
  induction (JS.Object_entries _) as [|p entries IH]; [done|].
  csimpl. rewrite arc_of_line, IH. by destruct (RouteMap.line p).
Qed.

(** X20. The globe draws the routes of the flat map: its arcs are the
    lines of the flat map, in the same order, with the same routes, counts
    and end coordinates; so the globe has as many arcs as the map has lines
    and its [maxCount] is the map's. *)
Theorem arcsData_of_routeCounts (data : list Row) :
  Globe3D.arcsData data = Globe3D.of_line <$> RouteMap.routeCounts data
  ∧ length (Globe3D.arcsData data) = length (RouteMap.routeCounts data)
  ∧ Globe3D.maxCount (Globe3D.arcsData data) = RouteMap.maxCount (RouteMap.routeCounts data).
Proof.
  rewrite arcs_of_lines. split_and!; [done|by rewrite length_fmap|].
  unfold Globe3D.maxCount, RouteMap.maxCount. by rewrite <- list_fmap_compose.
Qed.

Lemma forEach_visit_lines (lines : list RouteMap.RouteLine) (dummy : Airport.Coords)
    (m : JSMap.Map Globe3D.Place) :
  Forall (λ l, RouteMap.origin l = Text.substring (RouteMap.route l) 0 3
               ∧ RouteMap.dest l = Text.substring (RouteMap.route l) 3 6
               ∧ RouteMap.airportCoordinates !! RouteMap.origin l
                 = Some (RouteMap.originCoords l)
               ∧ RouteMap.airportCoordinates !! RouteMap.dest l
                 = Some (RouteMap.destCoords l)) lines →
  Globe3D.forEach_visit (Globe3D.of_line <$> lines) m
  = Some (foldl (λ m k, if JSMap.has m k then m
                        else JSMap.set m k
                               (Globe3D.of_airport
                                  (k, default dummy (RouteMap.airportCoordinates !! k))))
                m (RouteMap.endpoints lines)).
Proof.
  intros Hall. revert m. induction Hall as [|l lines (Ho & Hd & Hoc & Hdc) _ IH]; intros m.
  { done. }
  assert (Hsee : ∀ (m : JSMap.Map Globe3D.Place) k c,
    RouteMap.airportCoordinates !! k = Some c →
    Globe3D.see m k (Airport.lat c) (Airport.lng c)
    = Some (if JSMap.has m k then m
            else JSMap.set m k
                   (Globe3D.of_airport
                      (k, default dummy (RouteMap.airportCoordinates !! k))))).
  { intros m' k c Hc. unfold Globe3D.see. destruct (JSMap.has m' k); [done|].
    rewrite airport_tables_agree, Hc. done. }
  cbn [fmap list_fmap Globe3D.forEach_visit]. unfold Globe3D.visit.
  cbn [Globe3D.of_line Globe3D.route Globe3D.startLat Globe3D.startLng
       Globe3D.endLat Globe3D.endLng].
  rewrite <- Ho, <- Hd, (Hsee _ _ _ Hoc). cbn [mbind option_bind].
  rewrite (Hsee _ _ _ Hdc). cbn [mbind option_bind].
  change (Globe3D.forEach_visit (list_fmap _ _ Globe3D.of_line lines))
    with (Globe3D.forEach_visit (Globe3D.of_line <$> lines)).
  by rewrite IH.
Qed.

(** X21. Building the places of the globe never fails on a missing
    airport, and the places are the airport markers of the flat map, in
    the same order, each labelled with its code and city. *)
Theorem placesData_of_uniqueAirports (data : list Row) :
  Globe3D.placesData data
  = Some (Globe3D.of_airport <$> RouteMap.uniqueAirports (RouteMap.routeCounts data)).
Proof.
  unfold Globe3D.placesData. rewrite arcs_of_lines.
  rewrite (forEach_visit_lines _ (Airport.coords "" "" "")) by apply routeCounts_consistent.
  rewrite (has_fold_keyed
    (λ k, Globe3D.of_airport
            (k, default (Airport.coords "" "" "") (RouteMap.airportCoordinates !! k)))).
  rewrite (uniqueAirports_keyed _ (Airport.coords "" "" "")).
  2:{ eapply Forall_impl; [apply routeCounts_consistent|]. by intros l (_ & _ & ? & ?). }
  cbn [fmap option_fmap option_map]. f_equal.
  by rewrite <- !list_fmap_compose.
Qed.

(** ** The theme across sessions *)

Lemma mount_stored (storage : gmap string string) :
  (Theme.mount storage).2 !! "theme"
  = Some (if (Theme.mount storage).1 then "dark" else "light").
Proof.
  unfold Theme.mount. destruct (bool_decide (Theme.load storage true = true)) eqn:E; simpl.
  - unfold Theme.save. by rewrite lookup_insert_eq.
  - apply bool_decide_eq_false in E. unfold Theme.save. by rewrite lookup_insert_eq.
Qed.

Lemma toggle_stored (s : bool * gmap string string) :
  (Theme.toggle s).2 !! "theme" = Some (if (Theme.toggle s).1 then "dark" else "light").
Proof. unfold Theme.toggle, Theme.save. simpl. by rewrite lookup_insert_eq. Qed.

Lemma mount_of_stored (s : bool * gmap string string) :
  s.2 !! "theme" = Some (if s.1 then "dark" else "light") → Theme.mount s.2 = s.
Proof.
  destruct s as [isDark storage]. simpl. intros Hs.
  unfold Theme.mount, Theme.load, Theme.save. rewrite Hs. destruct isDark; simpl.
  - f_equal. by apply insert_id.
  - f_equal. rewrite insert_insert_eq. by apply insert_id.
Qed.

(** X22. Opening the page leaves in [localStorage] the theme that the
    page shows, ["dark"] or ["light"], and touches no other key.  The
    page opens dark unless the stored theme is a non-empty text other
    than ["dark"]. *)
Theorem theme_after_mount (storage : gmap string string) :
  (Theme.mount storage).2 !! "theme"
  = Some (if (Theme.mount storage).1 then "dark" else "light")
  ∧ (∀ key, key ≠ "theme" → (Theme.mount storage).2 !! key = storage !! key)
  ∧ ((Theme.mount storage).1 = false
     ↔ ∃ saved, storage !! "theme" = Some saved ∧ saved ≠ "" ∧ saved ≠ "dark").
Proof.
  split_and!.
  - apply mount_stored.
  - intros key Hkey. unfold Theme.mount, Theme.save.
    destruct (bool_decide (Theme.load storage true = true)); simpl;
      by rewrite !lookup_insert_ne.
  - unfold Theme.mount, Theme.load, JS.truthy.
    destruct (storage !! "theme") as [saved|]; simpl.
    + destruct (bool_decide_reflect (saved = "")) as [->|Hne]; simpl.
      * split; [done|]. by intros (? & [= <-] & ? & _).
      * destruct (bool_decide_reflect (saved = "dark")) as [->|Hd]; simpl.
        -- split; [done|]. by intros (? & [= <-] & _ & ?).
        -- split; [eauto|done].
    + split; [done|]. by intros (? & ? & _).
Qed.

(** X23. The theme survives a reload: after opening the page and toggling
    the theme any number of times, opening the page again on the storage
    left behind shows the same theme and leaves the storage as it is. *)
Theorem theme_round_trip (storage : gmap string string) (toggles : nat) :
  let session := Nat.iter toggles Theme.toggle (Theme.mount storage) in
  Theme.mount session.2 = session.
Proof.
  intros session. apply mount_of_stored. unfold session.
  destruct toggles as [|n]; simpl; [apply mount_stored|apply toggle_stored].
Qed.

(** ** Loading and the page *)

Lemma render_cells (s : App.State) :
  App.data (App.render s).2 = App.data s
  ∧ App.loading (App.render s).2 = App.loading s
  ∧ App.selectedRoute (App.render s).2 = App.selectedRoute s
  ∧ App.selectedTripType (App.render s).2 = App.selectedTripType s.
Proof.
  unfold App.render.
  destruct (React.useMemo (App.memo_routes s) _ _) as [rs c1].
  destruct (React.useMemo (App.memo_tripTypes s) _ _) as [ts c2].
  destruct (React.useMemo (App.memo_filteredData s) _ _) as [fd c3].
  destruct (React.useMemo (App.memo_stats s) _ _) as [st c4].
  destruct (ChartPanel.render (App.panel_bar s) fd) as [bar p1].
  destruct (ChartPanel.render (App.panel_pie s) fd) as [pie p2].
  destruct (ChartPanel.render (App.panel_horizontalBar s) fd) as [hbar p3].
  destruct (ChartPanel.render (App.panel_area s) fd) as [area p4].
  done.
Qed.

Lemma mount_cells :
  App.data (App.run []) = [] ∧ App.loading (App.run []) = true
  ∧ App.selectedRoute (App.run []) = "" ∧ App.selectedTripType (App.run []) = "".
Proof. change (App.run []) with (App.render App.mount).2. apply (render_cells App.mount). Qed.

Lemma filteredData_all (data : list Row) : App.filteredData data "" "" = data.
Proof.
  rewrite filteredData_filter. apply filter_all, Forall_forall.
  intros row _. split; by left.
Qed.

Lemma step_cells (s : App.State) (ev : App.Event) :
  App.data (App.step s ev) = App.data (App.update s ev)
  ∧ App.loading (App.step s ev) = App.loading (App.update s ev)
  ∧ App.selectedRoute (App.step s ev) = App.selectedRoute (App.update s ev)
  ∧ App.selectedTripType (App.step s ev) = App.selectedTripType (App.update s ev).
Proof. unfold App.step. apply render_cells. Qed.

Lemma load_cells (outcome : option (list Row)) :
  let s := App.run (Loading.events outcome) in
  App.data s = default [] outcome ∧ App.loading s = false
  ∧ App.selectedRoute s = "" ∧ App.selectedTripType s = "".
Proof.
  intros s. destruct mount_cells as (D0 & L0 & R0 & T0).
  unfold s. destruct outcome as [rows|]; cbn [Loading.events default].
  - change (App.run [App.setData rows; App.setLoading false])
      with (App.step (App.step (App.run []) (App.setData rows)) (App.setLoading false)).
    destruct (step_cells (App.step (App.run []) (App.setData rows)) (App.setLoading false))
      as (-> & -> & -> & ->).
    destruct (step_cells (App.run []) (App.setData rows)) as (D1 & L1 & R1 & T1).
    unfold App.update in *.
    cbn [App.data App.loading App.selectedRoute App.selectedTripType] in *.
    by rewrite D1, R1, T1, R0, T0.
  - change (App.run [App.setLoading false])
      with (App.step (App.run []) (App.setLoading false)).
    destruct (step_cells (App.run []) (App.setLoading false)) as (-> & -> & -> & ->).
    unfold App.update.
    cbn [App.data App.loading App.selectedRoute App.selectedTripType].
    by rewrite D0, R0, T0.
Qed.

(** X24. Once the dataset is loaded the page shows every record: the
    filtered sequence is the loaded sequence, the outputs are those of
    the pipeline with no selection, and [loading] is cleared.  When the
    load fails the same holds with the empty sequence. *)
Theorem page_after_load (outcome : option (list Row)) :
  let s := App.run (Loading.events outcome) in
  App.view s = Spec.pipeline (default [] outcome) "" ""
  ∧ App.view_filteredData (App.view s) = default [] outcome
  ∧ App.loading s = false.
Proof.
  intros s. destruct (load_cells outcome) as (Hd & Hl & Hr & Ht). fold s in Hd, Hl, Hr, Ht.
  assert (Hview : App.view s = Spec.pipeline (default [] outcome) "" "").
  { unfold s. rewrite view_run. fold s. by rewrite Hd, Hr, Ht. }
  split_and!; [done| |done].
  rewrite Hview. simpl. apply filteredData_all.
Qed.



(** X26. After a failed load the page stays in its zero state whatever
    the user does: as long as no dataset arrives, the filtered sequence,
    the facets and the four charts are empty and the statistics are all
    zero. *)
Theorem failed_load_zero_state (evs : list App.Event) :
  Forall (λ ev, Loading.keeps_data ev = true) evs →
  let v := App.view (App.run (Loading.events None ++ evs)) in
  App.view_filteredData v = [] ∧ App.view_routes v = [] ∧ App.view_tripTypes v = []
  ∧ App.view_stats v
    = {| App.total := 0; App.completed := 0; App.completionRate := "0";
         App.avgPassengers := "0"; App.uniqueRoutes := 0 |}
  ∧ App.view_byCompletion v = [] ∧ App.view_byTripType v = []
  ∧ App.view_topRoutes v = [] ∧ App.view_avgLeadByRoute v = [].
Proof.
  intros Hevs v.
  assert (Hdata : App.data (App.run (Loading.events None ++ evs)) = []).
  { induction evs as [|ev evs IH] using rev_ind.
    - rewrite app_nil_r. by destruct (load_cells None) as [-> _].
    - apply Forall_app in Hevs as [Hevs Hev]. rewrite Forall_singleton in Hev.
      rewrite app_assoc, run_snoc. destruct (step_cells
        (App.run (Loading.events None ++ evs)) ev) as (-> & _).
      specialize (IH Hevs). by destruct ev. }
  unfold v. rewrite view_run, Hdata. by split_and!.
Qed.

Lemma failed_load_zero_state_witness :
  App.view_filteredData
    (App.view (App.run (Loading.events None
                        ++ [App.setSelectedRoute "AKLDEL"; App.setIsDark false]))) = [].
Proof.
  apply (failed_load_zero_state [App.setSelectedRoute "AKLDEL"; App.setIsDark false]).
  repeat constructor.
Defined.
